(** * Geocoin world generation and cache economy

    A shallow embedding of the cache game of this repository:

    - [Main]      : [src/main.ts], the cell-indexed build whose popups read
                    and write the [cacheState] store;
    - [Example]   : [src/example.ts], the starter build with popup-local
                    counters and a fixed scan around cell (0,0);
    - [Flyweight] : the [CoordinateFactory] registry;
    - [Memento]   : the build with [CacheMemento], [saveState] and
                    [loadState];
    - [Binary64]  : the coordinate arithmetic of the builds as JavaScript
                    carries it out, in binary64.

    In the first four modules JavaScript numbers are modelled by exact
    numbers: cell indices and coin counters by [Z], geographic coordinates
    and oracle values by [Q]. Binary64 rounding, [-0], [NaN] and the
    infinities are outside these modules: a sum or a quotient is the exact
    one, which differs from JavaScript's by a rounding error and so, for a
    point within such an error of the boundary of a cell, by one in the
    index of the cell. The statements made on these modules are relative to
    the sums and indices; where a statement depends on the rounding, it is
    made on [Binary64].
    The oracle [luck] (module [luck.ts]) is not part of the sources at hand:
    it is a parameter of every section that calls it. *)

From Stdlib Require Import Ascii ZArith QArith Qround Lia.
From Stdlib Require SpecFloat.
From stdpp Require Import base option list gmap strings pretty fin_maps.

Local Open Scope Z_scope.

(** ** JavaScript primitives used by the sources *)

(** [a < b] on numbers. *)
Definition Qltb (a b : Q) : bool := (Qnum a * QDen b <? Qnum b * QDen a)%Z.

(** [Math.floor]. *)
Definition Math_floor (x : Q) : Z := Qfloor x.

(** [Number.prototype.toString] on an integer-valued number, below the
    10^21 from which JavaScript switches to the exponent notation. *)
Definition Number_toString (n : Z) : string := pretty n.

(** [Array.prototype.toString]: the elements, already converted to strings,
    joined by commas. *)
Definition Array_toString (xs : list string) : string := String.concat "," xs.

(** A counting loop [for (let x = lo; ...; x++) body(x)] that runs [n] times,
    threading the program state through the body. *)
Fixpoint for_count {S : Type} (lo : Z) (n : nat) (body : Z → S → S) (s : S) : S :=
  match n with
  | O => s
  | Datatypes.S n' => for_count (lo + 1) n' body (body lo s)
  end.

(** [for (let x = lo; x <= hi; x++) body(x)] *)
Definition for_le {S : Type} (lo hi : Z) (body : Z → S → S) (s : S) : S :=
  for_count lo (Z.to_nat (hi + 1 - lo)) body s.

(** [for (let x = lo; x < hi; x++) body(x)] *)
Definition for_lt {S : Type} (lo hi : Z) (body : Z → S → S) (s : S) : S :=
  for_count lo (Z.to_nat (hi - lo)) body s.

(** A grid cell, the object literal [{ i, j }]. *)
Record Cell := mkCell { cell_i : Z; cell_j : Z }.

#[global] Instance Cell_eq_dec : EqDecision Cell.
Proof. solve_decision. Defined.

(** A geographic point, Leaflet's [LatLng]. *)
Record LatLng := latLng { lat : Q; lng : Q }.

(** What a cache holds: the object [{ pointValue, coinCount }]. *)
Record CacheRecord := mkCacheRecord { pointValue : Z; coinCount : Z }.

(** ** [src/main.ts] *)
Module Main.

Definition OAKES_CLASSROOM : LatLng :=
  latLng (3698949379578401 # 100000000000000)
         (- (12206277128548504 # 100000000000000)).

Definition TILE_DEGREES : Q := 1 # 10000.
Definition NEIGHBORHOOD_SIZE : Z := 8.
Definition CACHE_SPAWN_PROBABILITY : Q := 1 # 10.

(** The module-level variables of the script. [rects] stands for the
    [leaflet.Rectangle] layers currently on the map, one per spawned cache,
    in the order they were added. *)
Record World := mkWorld {
  playerLocation : LatLng;
  playerPoints : Z;
  playerCoins : Z;
  cacheState : gmap string CacheRecord;
  rects : list Cell
}.

Definition set_rects (w : World) (r : list Cell) : World :=
  mkWorld (playerLocation w) (playerPoints w) (playerCoins w) (cacheState w) r.
Definition set_cacheState (w : World) (m : gmap string CacheRecord) : World :=
  mkWorld (playerLocation w) (playerPoints w) (playerCoins w) m (rects w).
Definition set_playerLocation (w : World) (l : LatLng) : World :=
  mkWorld l (playerPoints w) (playerCoins w) (cacheState w) (rects w).

(** The quotients are exact here; [Binary64.cellIndex] is the index as
    JavaScript computes it. *)
Definition _latLngToCell (lat lng : Q) : Cell :=
  mkCell (Math_floor (lat / TILE_DEGREES)) (Math_floor (lng / TILE_DEGREES)).

(** The template literal [`${i},${j}`]. *)
Definition cacheKey (i j : Z) : string :=
  Number_toString i +:+ "," +:+ Number_toString j.

(** What the popup callback closes over: the cell, its store key and the two
    constants destructured from the store entry when the popup was built. *)
Record Popup := mkPopup {
  popup_i : Z;
  popup_j : Z;
  popup_cacheKey : string;
  popup_pointValue : Z;
  popup_coinCount : Z
}.

Section WithOracle.

Variable luck : string → Q.

(** The object literal assigned to [cacheState[cacheKey]] when the cell has
    no entry yet. *)
Definition initialRecord (i j : Z) : CacheRecord :=
  mkCacheRecord
    (Math_floor (luck (Array_toString
       [Number_toString i; Number_toString j; "initialValue"]) * 100))
    (Math_floor (luck (Array_toString
       [Number_toString i; Number_toString j; "coinCount"]) * 10)).

(** The function given to [rect.bindPopup]; it runs each time the popup of
    the rectangle of cell [(i, j)] is opened. *)
Definition bindPopup (i j : Z) (w : World) : Popup * World :=
  let key := cacheKey i j in
  let w' := match cacheState w !! key with
            | Some _ => w
            | None => set_cacheState w (<[key := initialRecord i j]> (cacheState w))
            end in
  let r := default (initialRecord i j) (cacheState w' !! key) in
  (mkPopup i j key (pointValue r) (coinCount r), w').

(** Click handler of the collect button. [None] is the [TypeError] raised by
    [cacheState[cacheKey].coinCount] when the store has no such entry; it is
    raised before anything is written. *)
Definition collect (p : Popup) (w : World) : option World :=
  match cacheState w !! popup_cacheKey p with
  | None => None
  | Some r =>
      if 0 <? coinCount r then
        Some (mkWorld (playerLocation w)
                      (playerPoints w + popup_pointValue p)
                      (playerCoins w + 1)
                      (<[popup_cacheKey p :=
                           mkCacheRecord (pointValue r) (coinCount r - 1)]>
                         (cacheState w))
                      (rects w))
      else Some w
  end.

(** Click handler of the deposit button. *)
Definition deposit (p : Popup) (w : World) : option World :=
  if 0 <? playerCoins w then
    match cacheState w !! popup_cacheKey p with
    | None => None
    | Some r =>
        Some (mkWorld (playerLocation w)
                      (playerPoints w)
                      (playerCoins w - 1)
                      (<[popup_cacheKey p :=
                           mkCacheRecord (pointValue r) (coinCount r + 1)]>
                         (cacheState w))
                      (rects w))
    end
  else Some w.

(** [spawnCache(i, j)]: adds the rectangle of the cell to the map. *)
Definition spawnCache (i j : Z) (w : World) : World :=
  set_rects w (rects w ++ [mkCell i j]).

(** The test of the inner loop of [updateCaches]. *)
Definition luckValue (i j : Z) : Q :=
  luck (Array_toString [Number_toString i; Number_toString j]).

(** The two nested loops of [updateCaches], for a window of radius [r]
    around the cell [pc]. *)
Definition scan (r : Z) (pc : Cell) (w : World) : World :=
  for_le (cell_i pc - r) (cell_i pc + r) (λ i,
    for_le (cell_j pc - r) (cell_j pc + r) (λ j w,
      if Qltb (luckValue i j) CACHE_SPAWN_PROBABILITY
      then spawnCache i j w else w)) w.

Definition updateCaches (w : World) : World :=
  let w0 := set_rects w [] in
  let playerCell :=
    _latLngToCell (lat (playerLocation w0)) (lng (playerLocation w0)) in
  scan NEIGHBORHOOD_SIZE playerCell w0.

Definition movePlayer (latOffset lngOffset : Q) (w : World) : World :=
  updateCaches
    (set_playerLocation w
       (latLng (lat (playerLocation w) + latOffset)
               (lng (playerLocation w) + lngOffset))).

(** The state once the script has run to its end. *)
Definition initialWorld : World :=
  updateCaches (mkWorld OAKES_CLASSROOM 0 0 ∅ []).

(** The four movement buttons. *)
Inductive direction := north | south | west | east.

Definition move (d : direction) (w : World) : World :=
  match d with
  | north => movePlayer TILE_DEGREES 0 w
  | south => movePlayer (- TILE_DEGREES) 0 w
  | west => movePlayer 0 (- TILE_DEGREES) w
  | east => movePlayer 0 TILE_DEGREES w
  end.

(** A running game: the variables of the script and the popups built so
    far. Leaflet shows one popup at a time and drops the popups of the
    rectangles that [updateCaches] removes; the model keeps every popup
    clickable, which only adds runs. *)
Record Session := mkSession { world : World; popups : list Popup }.

Definition start : Session := mkSession initialWorld [].

(** One user action: a movement button, opening the popup of a rectangle on
    the map, or a click on a popup button whose handler runs to its end. *)
Inductive step : Session → Session → Prop :=
| step_move d s :
    step s (mkSession (move d (world s)) (popups s))
| step_open c s :
    c ∈ rects (world s) →
    step s (mkSession (bindPopup (cell_i c) (cell_j c) (world s)).2
                      ((bindPopup (cell_i c) (cell_j c) (world s)).1 :: popups s))
| step_collect p s w' :
    p ∈ popups s → collect p (world s) = Some w' →
    step s (mkSession w' (popups s))
| step_deposit p s w' :
    p ∈ popups s → deposit p (world s) = Some w' →
    step s (mkSession w' (popups s)).

Definition reachable (s : Session) : Prop := rtc step start s.

(** [n] clicks in a row on the same button. *)
Fixpoint clicks (handler : World → option World) (n : nat) (w : World)
  : option World :=
  match n with
  | O => Some w
  | Datatypes.S n' =>
      match handler w with
      | Some w' => clicks handler n' w'
      | None => None
      end
  end.

(** *** Notions used to state the properties of this build *)

(** What one round of the inner loop adds to the map. *)
Definition spawned_at (i j : Z) : list Cell :=
  if Qltb (luckValue i j) CACHE_SPAWN_PROBABILITY then [mkCell i j] else [].

(** What a scan that visits its window row by row adds to the map. *)
Definition spawned (r : Z) (pc : Cell) : list Cell :=
  i ← seqZ (cell_i pc - r) (Z.of_nat (Z.to_nat (cell_i pc + r + 1 - (cell_i pc - r))));
  j ← seqZ (cell_j pc - r) (Z.of_nat (Z.to_nat (cell_j pc + r + 1 - (cell_j pc - r))));
  spawned_at i j.

(** The cell the player stands in. *)
Definition playerCell (w : World) : Cell :=
  _latLngToCell (lat (playerLocation w)) (lng (playerLocation w)).

(** The square window of radius [r] around [pc], both ends included. *)
Definition in_window (r : Z) (pc c : Cell) : Prop :=
  cell_i pc - r ≤ cell_i c ≤ cell_i pc + r ∧
  cell_j pc - r ≤ cell_j c ≤ cell_j pc + r.

(** The popup [p] belongs to a cache of the store, and the point value it
    closed over is the one of that cache. *)
Definition popup_bound (w : World) (p : Popup) : Prop :=
  ∃ r, cacheState w !! popup_cacheKey p = Some r
       ∧ pointValue r = popup_pointValue p.

(** No counter is negative, and every popup is bound. *)
Record session_inv (s : Session) : Prop := mk_session_inv {
  inv_wallet : 0 ≤ playerCoins (world s);
  inv_caches : ∀ k r, cacheState (world s) !! k = Some r → 0 ≤ coinCount r;
  inv_popups : ∀ p, p ∈ popups s → popup_bound (world s) p
}.

(** The coins that lie in the caches of the store, all together. *)
Definition coins_in_caches (m : gmap string CacheRecord) : Z :=
  map_fold (λ _ r total, coinCount r + total) 0 m.

(** All the coins of the game: the wallet and the caches. *)
Definition coins_in_game (w : World) : Z :=
  playerCoins w + coins_in_caches (cacheState w).

(** Every entry of the store sits under the key of a cell and has the point
    value that the oracle gives that cell. *)
Definition store_generated (w : World) : Prop :=
  ∀ k r, cacheState w !! k = Some r →
    ∃ i j, k = cacheKey i j ∧ pointValue r = pointValue (initialRecord i j).

End WithOracle.
End Main.

(** ** [src/example.ts] *)
Module Example.

Definition NEIGHBORHOOD_SIZE : Z := 8.
Definition CACHE_SPAWN_PROBABILITY : Q := 1 # 10.

Section WithOracle.

Variable luck : string → Q.

Definition luckValue (i j : Z) : Q :=
  luck (Array_toString [Number_toString i; Number_toString j]).

(** The rectangles on the map once the script has run: the top-level loops
    "look around the player's neighborhood", calling [spawnCache(i, j)] for
    the lucky cells. The state of the loops is the list of rectangles. *)
Definition spawnCache (i j : Z) (rects : list Cell) : list Cell :=
  rects ++ [mkCell i j].

Definition scan (r : Z) (rects : list Cell) : list Cell :=
  for_lt (- r) r (λ i,
    for_lt (- r) r (λ j rects,
      if Qltb (luckValue i j) CACHE_SPAWN_PROBABILITY
      then spawnCache i j rects else rects)) rects.

Definition rects : list Cell := scan NEIGHBORHOOD_SIZE [].

(** The two counters of the script. *)
Record Player := mkPlayer { playerPoints : Z; playerCoins : Z }.

(** The function given to [rect.bindPopup]: each time the popup of cell
    [(i, j)] is opened, its two local variables [pointValue] and [coinCount]
    are set anew from the oracle. *)
Definition bindPopup (i j : Z) : CacheRecord :=
  mkCacheRecord
    (Math_floor (luck (Array_toString
       [Number_toString i; Number_toString j; "initialValue"]) * 100))
    (Math_floor (luck (Array_toString
       [Number_toString i; Number_toString j; "coinCount"]) * 10)).

(** The click handlers, on the local variables of the popup and the
    counters of the script. *)
Definition collect (s : CacheRecord * Player) : CacheRecord * Player :=
  let (c, p) := s in
  if 0 <? coinCount c then
    (mkCacheRecord (pointValue c) (coinCount c - 1),
     mkPlayer (playerPoints p + pointValue c) (playerCoins p + 1))
  else s.

Definition deposit (s : CacheRecord * Player) : CacheRecord * Player :=
  let (c, p) := s in
  if 0 <? playerCoins p then
    (mkCacheRecord (pointValue c) (coinCount c + 1),
     mkPlayer (playerPoints p) (playerCoins p - 1))
  else s.

(** The player opens the popup of cell [(i, j)], clicks [n] times on the
    collect button and leaves. *)
Definition visit (i j : Z) (n : nat) (p : Player) : Player :=
  (Nat.iter n collect (bindPopup i j, p)).2.

(** *** Notions used to state the properties of this build *)

Definition spawned_at (i j : Z) : list Cell :=
  if Qltb (luckValue i j) CACHE_SPAWN_PROBABILITY then [mkCell i j] else [].

Definition spawned (r : Z) : list Cell :=
  i ← seqZ (- r) (Z.of_nat (Z.to_nat (r - - r)));
  j ← seqZ (- r) (Z.of_nat (Z.to_nat (r - - r)));
  spawned_at i j.

End WithOracle.
End Example.

(** ** The coordinate flyweight ([CoordinateFactory]) *)
Module Flyweight.

(** The private map [coordinates] of the factory together with the
    [Coordinate] objects allocated so far: a reference to an object is its
    index in [objects], so two references are the same object exactly when
    they are equal. *)
Record Registry := mkRegistry {
  coordinates : gmap string nat;
  objects : list Cell
}.

Definition empty : Registry := mkRegistry ∅ [].

Definition cellSize : Q := 1 # 10000.

(** The template literal [`${i}:${j}`]. *)
Definition key (i j : Z) : string :=
  Number_toString i +:+ ":" +:+ Number_toString j.

(** [getCoordinate(lat, lng)]: the reference returned by
    [coordinates.get(key)] ([None] stands for [undefined]) and the registry
    after the call. The quotients are exact here; [Binary64.cellIndex] is
    the index as JavaScript computes it. *)
Definition getCoordinate (lat lng : Q) (R : Registry) : option nat * Registry :=
  let i := Math_floor (lat / cellSize) in
  let j := Math_floor (lng / cellSize) in
  let k := key i j in
  let R' :=
    if decide (is_Some (coordinates R !! k)) then R
    else mkRegistry (<[k := length (objects R)]> (coordinates R))
                    (objects R ++ [mkCell i j]) in
  (coordinates R' !! k, R').

(** The registries the factory can be in: it starts empty and changes only
    through [getCoordinate]. *)
Inductive reachable : Registry → Prop :=
| reachable_empty : reachable empty
| reachable_get lat lng R :
    reachable R → reachable (getCoordinate lat lng R).2.

(** *** Notions used to state the properties of the factory *)

(** Every key of the map leads to an allocated object, and is the key of
    the cell held by that object. *)
Definition wf (R : Registry) : Prop :=
  ∀ k a, coordinates R !! k = Some a →
    ∃ c, objects R !! a = Some c ∧ k = key (cell_i c) (cell_j c).

(** A sequence of calls of [getCoordinate], the references dropped. *)
Definition calls (ps : list (Q * Q)) (R : Registry) : Registry :=
  foldl (λ R p, (getCoordinate p.1 p.2 R).2) R ps.

End Flyweight.

(** ** Coins and the popup of the build with [generateCoins] *)
Module Tokens.

(** A [Coin]: the value of its field [coordinate], a reference to a
    [Coordinate] of the factory or [undefined] ([None]), and its serial. *)
Record Coin := mkCoin { coordinate : option nat; serial : Z }.

(** [getUniqueID()] of the TypeScript class. [None] is the [TypeError] of
    reading [i] from a coordinate that is not an object. *)
Definition getUniqueID (R : Flyweight.Registry) (c : Coin) : option string :=
  a ← coordinate c;
  cell ← Flyweight.objects R !! a;
  Some ("{i: " +:+ Number_toString (cell_i cell)
        +:+ ", j: " +:+ Number_toString (cell_j cell)
        +:+ ", serial: " +:+ Number_toString (serial c) +:+ "}").

(** [getUniqueID()] of the JavaScript class. *)
Definition getUniqueID_js (R : Flyweight.Registry) (c : Coin) : option string :=
  a ← coordinate c;
  cell ← Flyweight.objects R !! a;
  Some (Number_toString (cell_i cell) +:+ ":" +:+ Number_toString (cell_j cell)
        +:+ "#" +:+ Number_toString (serial c)).

(** [spawnCoinsAtCache(lat, lng, count)]: the array [coins] and the registry
    after the call. *)
Definition spawnCoinsAtCache (lat lng : Q) (count : Z) (R : Flyweight.Registry)
  : list Coin * Flyweight.Registry :=
  let (coordinate, R') := Flyweight.getCoordinate lat lng R in
  (for_lt 0 count (λ serial coins, coins ++ [mkCoin coordinate serial]) [],
   R').

(** The popup of the TypeScript build: its local variable [coinCount] and
    the wallet [playerCoins] of the script. *)
Record Purse := mkPurse { coinCount : Z; playerCoins : Z }.

(** [generateCoins()], given the value drawn by [Math.random()]. *)
Definition generateCoins (random : Q) : Z := Math_floor (random * 10) + 1.

Definition collect (s : Purse) : Purse :=
  if 0 <? coinCount s then mkPurse 0 (playerCoins s + coinCount s) else s.

Definition deposit (s : Purse) : Purse :=
  if 0 <? playerCoins s then mkPurse (coinCount s + playerCoins s) 0 else s.

(** A click on one of the two buttons. *)
Inductive click := Collect | Deposit.

Definition handle (c : click) (s : Purse) : Purse :=
  match c with Collect => collect s | Deposit => deposit s end.

End Tokens.

(** [c] is one of the characters of [s]. *)
Fixpoint occurs (c : ascii) (s : string) : Prop :=
  match s with
  | EmptyString => False
  | String a s' => a = c ∨ occurs c s'
  end.

(** [c] is one of the characters of the decimal notation. *)
Definition digit (c : ascii) : Prop := ∃ d : N, c = pretty_N_char d.

(** ** The build with [CacheMemento] and persistence *)

(** A value produced by [JSON.parse]. *)
#[local] Unset Elimination Schemes.
Inductive json :=
| JNull
| JBool (b : bool)
| JNum (q : Q)
| JStr (s : string)
| JArr (items : list json)
| JObj (fields : list (string * json)).
#[local] Set Elimination Schemes.

(** Property lookup in a parsed object: of several fields with the same
    name, [JSON.parse] keeps the last. *)
Fixpoint assoc_last (k : string) (l : list (string * json)) : option json :=
  match l with
  | [] => None
  | (k', v) :: l' =>
      match assoc_last k l' with
      | Some v' => Some v'
      | None => if decide (k = k') then Some v else None
      end
  end.

(** [v.name] for a value [v] other than [null]; [None] is [undefined].
    None of the names looked up below is a property of a number, a
    boolean, a string or an array. *)
Definition js_get (v : json) (name : string) : option json :=
  match v with
  | JObj fs => assoc_last name fs
  | _ => None
  end.

(** The test [if (v)] on a value that may be [undefined]. *)
Definition truthy (v : option json) : bool :=
  match v with
  | None | Some JNull | Some (JBool false) => false
  | Some (JNum q) => negb (Qnum q =? 0)
  | Some (JStr s) => negb (bool_decide (s = ""))
  | Some _ => true
  end.

(** What the slot ["gameState"] of [localStorage] holds: the empty text,
    another text that [JSON.parse] rejects, or a text standing for the value
    it parses to ([JSON.parse] undoes [JSON.stringify] on objects, arrays,
    strings and finite numbers). The empty text is the one text that the
    test [if (state)] takes for false. *)
Inductive blob :=
| Empty
| Unparseable
| Parsed (v : json).

Module Memento.

Definition OAKES_CLASSROOM : LatLng :=
  latLng (3698949379578401 # 100000000000000)
         (- (12206277128548504 # 100000000000000)).
Definition initialLocation : LatLng := OAKES_CLASSROOM.

Definition TILE_DEGREES : Q := 1 # 10000.
Definition NEIGHBORHOOD_SIZE : Z := 8.
Definition CACHE_SPAWN_PROBABILITY : Q := 1 # 10.

(** The module-level state of the script.
    - [objects]: the cache state objects [{ pointValue, coinCount }]
      allocated so far; a reference to one is its index;
    - [cacheStates]: the [Map] inside [CacheMemento], from key to reference;
    - [circles]: the [leaflet.Circle] layers on the map;
    - [localStorage]: the slot ["gameState"]. *)
Record World := mkWorld {
  playerLocation : LatLng;
  playerPoints : Z;
  playerCoins : Z;
  objects : list CacheRecord;
  cacheStates : gmap string nat;
  movementHistory : list LatLng;
  circles : list LatLng;
  localStorage : option blob
}.

(** [generateCoins()], given the value drawn by [Math.random()]. *)
Definition generateCoins (random : Q) : Z := Math_floor (random * 10) + 1.

Module CacheMemento.

Definition saveState (key : string) (state : nat) (w : World) : World :=
  mkWorld (playerLocation w) (playerPoints w) (playerCoins w) (objects w)
          (<[key := state]> (cacheStates w))
          (movementHistory w) (circles w) (localStorage w).

Definition getState (key : string) (w : World) : option nat :=
  cacheStates w !! key.

Definition clearStates (w : World) : World :=
  mkWorld (playerLocation w) (playerPoints w) (playerCoins w) (objects w)
          ∅ (movementHistory w) (circles w) (localStorage w).

End CacheMemento.

(** Allocation of a fresh object. *)
Definition new_object (r : CacheRecord) (w : World) : nat * World :=
  (length (objects w),
   mkWorld (playerLocation w) (playerPoints w) (playerCoins w)
           (objects w ++ [r]) (cacheStates w)
           (movementHistory w) (circles w) (localStorage w)).

(** Assignment to [state.coinCount] through the reference [state]. *)
Definition set_coinCount (state : nat) (f : Z → Z) (w : World) : World :=
  mkWorld (playerLocation w) (playerPoints w) (playerCoins w)
          (alter (λ r, mkCacheRecord (pointValue r) (f (coinCount r)))
                 state (objects w))
          (cacheStates w) (movementHistory w) (circles w) (localStorage w).

Definition set_playerCoins (n : Z) (w : World) : World :=
  mkWorld (playerLocation w) (playerPoints w) n (objects w) (cacheStates w)
          (movementHistory w) (circles w) (localStorage w).

(** What the store says about each key, read through the references. *)
Definition store_view (w : World) : gmap string CacheRecord :=
  omap (λ state, objects w !! state) (cacheStates w).

(** What the popup callback closes over: the point, the key, the reference
    [state], and the constants [pointValue] and [coinCount] destructured
    from the object when the popup was built. *)
Record Popup := mkPopup {
  popup_lat : Q;
  popup_lng : Q;
  popup_key : string;
  popup_state : nat;
  popup_pointValue : Z;
  popup_coinCount : Z
}.

(** An uncaught JavaScript exception. *)
Inductive exn := SyntaxError | TypeError.

(** How a run of [loadState] ends.
    - [Returned w]: it ran to its end, leaving the state [w];
    - [Thrown e w]: it raised [e], which nothing catches, after the
      writes that led to [w];
    - [Untyped e]: it assigned a value of another type than the one
      [saveState] writes in that place (a counter that is not an integer, an
      entry of the store that is not a string with a record of two
      integers). Nothing in [loadState] tests for that: it went on, to its
      end ([e] is [None]) or up to the exception [e]. The variables of the
      script then hold that value, which [World] has no place for; what the
      script makes of it later rests on JavaScript's coercions and is
      outside this model;
    - [Unchecked]: it handed [leaflet.latLng] a coordinate that is not a
      number. What Leaflet makes of it is not decided by the sources at
      hand. *)
Inductive outcome :=
| Returned (w : World)
| Thrown (e : exn) (w : World)
| Untyped (e : option exn)
| Unchecked.

(** The end of a run, [typed] telling whether every value assigned on the
    way was of the type [saveState] writes in its place. *)
Definition returned (typed : bool) (w : World) : outcome :=
  if typed then Returned w else Untyped None.

Definition thrown (typed : bool) (e : exn) (w : World) : outcome :=
  if typed then Thrown e w else Untyped (Some e).

(** A field read as an integer counter. *)
Definition as_integer (v : option json) : option Z :=
  match v with
  | Some (JNum q) => if decide (Qden q = 1%positive) then Some (Qnum q) else None
  | _ => None
  end.

(** [leaflet.latLng(a, b)] on two numbers. *)
Definition leaflet_latLng (a b : option json) : option LatLng :=
  match a, b with
  | Some (JNum x), Some (JNum y) => Some (latLng x y)
  | _, _ => None
  end.

(** [playerState.setLocation]. *)
Definition setLocation (l : LatLng) (w : World) : World :=
  mkWorld l (playerPoints w) (playerCoins w) (objects w) (cacheStates w)
          (movementHistory w) (circles w) (localStorage w).

Definition set_counters (points coins : Z) (w : World) : World :=
  mkWorld (playerLocation w) points coins (objects w) (cacheStates w)
          (movementHistory w) (circles w) (localStorage w).

Definition set_movementHistory (h : list LatLng) (w : World) : World :=
  mkWorld (playerLocation w) (playerPoints w) (playerCoins w) (objects w)
          (cacheStates w) h (circles w) (localStorage w).

Definition set_circles (c : list LatLng) (w : World) : World :=
  mkWorld (playerLocation w) (playerPoints w) (playerCoins w) (objects w)
          (cacheStates w) (movementHistory w) c (localStorage w).

Definition set_localStorage (b : option blob) (w : World) : World :=
  mkWorld (playerLocation w) (playerPoints w) (playerCoins w) (objects w)
          (cacheStates w) (movementHistory w) (circles w) b.

(** *** [saveState] *)

Definition json_of_Z (n : Z) : json := JNum (inject_Z n).

Definition json_of_LatLng (l : LatLng) : json :=
  JObj [("lat", JNum (lat l)); ("lng", JNum (lng l))].

Definition json_of_CacheRecord (r : CacheRecord) : json :=
  JObj [("pointValue", json_of_Z (pointValue r));
        ("coinCount", json_of_Z (coinCount r))].

(** One element of [Array.from(CacheMemento.cacheStates.entries())]. *)
Definition json_of_entry (e : string * CacheRecord) : json :=
  JArr [JStr e.1; json_of_CacheRecord e.2].

(** The object [state] built by [saveState]. The model keeps a [Map] as a
    finite map, so the entries come in the order of [map_to_list] and not in
    the order of insertion. *)
Definition snapshot (w : World) : json :=
  JObj [("playerLocation", json_of_LatLng (playerLocation w));
        ("playerPoints", json_of_Z (playerPoints w));
        ("playerCoins", json_of_Z (playerCoins w));
        ("cacheStates", JArr (json_of_entry <$> map_to_list (store_view w)));
        ("movementHistory", JArr (json_of_LatLng <$> movementHistory w))].

Definition saveState (w : World) : World :=
  set_localStorage (Some (Parsed (snapshot w))) w.

(** *** [loadState] *)

(** How [cacheStates.forEach] ends: after the last element, or with the
    [TypeError] of an element that cannot be destructured. *)
Inductive iterated :=
| Iterated (typed : bool) (w : World)
| IterationThrown (typed : bool) (w : World).

(** The callback of [cacheStates.forEach]: the parameter [[key, value]]
    destructures the element, which must be iterable (an array or a string);
    [CacheMemento.saveState] then stores whatever [key] and [value] are. A
    string key with an object of two integers is an entry as [saveState]
    writes it; the object is one that [JSON.parse] has just allocated. *)
Fixpoint forEach_saveState (l : list json) (typed : bool) (w : World) : iterated :=
  match l with
  | [] => Iterated typed w
  | JArr (JStr key :: JObj fs :: _) :: l' =>
      match as_integer (assoc_last "pointValue" fs),
            as_integer (assoc_last "coinCount" fs) with
      | Some pv, Some cc =>
          let (state, w1) := new_object (mkCacheRecord pv cc) w in
          forEach_saveState l' typed (CacheMemento.saveState key state w1)
      | _, _ => forEach_saveState l' false w
      end
  | (JArr _ | JStr _) :: l' => forEach_saveState l' false w
  | (JNull | JBool _ | JNum _ | JObj _) :: _ => IterationThrown typed w
  end.

(** The result of [history.map(latlng => leaflet.latLng(latlng.lat,
    latlng.lng))]: the new array, a [TypeError] at an element that is
    [null], or a coordinate that is not a number. *)
Inductive mapped := Mapped (l : list LatLng) | MapThrown | MapUnchecked.

Fixpoint map_latLng (l : list json) : mapped :=
  match l with
  | [] => Mapped []
  | JNull :: _ => MapThrown
  | v :: l' =>
      match leaflet_latLng (js_get v "lat") (js_get v "lng") with
      | None => MapUnchecked
      | Some p =>
          match map_latLng l' with
          | Mapped ps => Mapped (p :: ps)
          | r => r
          end
      end
  end.

(** The assignments [playerPoints = points; playerCoins = coins]. *)
Definition assign_counters (points coins : option json) (w : World) : bool * World :=
  match as_integer points, as_integer coins with
  | Some points, Some coins => (true, set_counters points coins w)
  | _, _ => (false, w)
  end.

Definition loadState (w : World) : outcome :=
  match localStorage w with
  | None | Some Empty => Returned w
  | Some Unparseable => Thrown SyntaxError w
  | Some (Parsed JNull) => Thrown TypeError w
  | Some (Parsed v) =>
      let loc := js_get v "playerLocation" in
      let points := js_get v "playerPoints" in
      let coins := js_get v "playerCoins" in
      let cacheStates := js_get v "cacheStates" in
      let history := js_get v "movementHistory" in
      match loc with
      | None | Some JNull => Thrown TypeError w
      | Some loc =>
          match leaflet_latLng (js_get loc "lat") (js_get loc "lng") with
          | None => Unchecked
          | Some savedLocation =>
              let w1 := setLocation savedLocation w in
              let (typed, w2) := assign_counters points coins w1 in
              let w3 := CacheMemento.clearStates w2 in
              let after_store :=
                if truthy cacheStates then
                  match cacheStates with
                  | Some (JArr l) => forEach_saveState l typed w3
                  | _ => IterationThrown typed w3
                  end
                else Iterated typed w3 in
              match after_store with
              | Iterated typed w4 =>
                  match history with
                  | Some (JArr l) =>
                      match map_latLng l with
                      | Mapped h => returned typed (set_movementHistory h w4)
                      | MapThrown => thrown typed TypeError w4
                      | MapUnchecked => Unchecked
                      end
                  | _ => thrown typed TypeError w4
                  end
              | IterationThrown typed w4 => thrown typed TypeError w4
              end
          end
      end
  end.

(** *** Notions used to state the properties of persistence *)

(** Every reference held by the store is to an allocated object. *)
Definition store_wf (w : World) : Prop :=
  ∀ k state, cacheStates w !! k = Some state → (state < length (objects w))%nat.

(** The session: what is left of the state once the store, the map layers
    and the storage slot are set aside. *)
Definition session (w : World) : LatLng * Z * Z * list LatLng :=
  (playerLocation w, playerPoints w, playerCoins w, movementHistory w).

Section WithOracle.

Variable luck : string → Q.

(** [Number.prototype.toString] on the coordinates, which are not integers:
    the model takes JavaScript's decimal notation of a number as given. *)
Variable coordinate_toString : Q → string.

(** The function given to [circle.bindPopup], for the circle at
    [(lat, lng)]; [random] is what [Math.random()] returns if it is called. *)
Definition bindPopup (lat lng : Q) (random : Q) (w : World) : Popup * World :=
  let key := coordinate_toString lat +:+ ":" +:+ coordinate_toString lng in
  let '(state, w') :=
    match CacheMemento.getState key w with
    | Some state => (state, w)
    | None =>
        let (state, w1) :=
          new_object
            (mkCacheRecord
               (Math_floor (luck (Array_toString
                  [coordinate_toString lat; coordinate_toString lng;
                   "initialValue"]) * 100))
               (generateCoins random)) w in
        (state, CacheMemento.saveState key state w1)
    end in
  let r := default (mkCacheRecord 0 0) (objects w' !! state) in
  (mkPopup lat lng key state (pointValue r) (coinCount r), w').

(** Click handler of the collect button. *)
Definition collect (p : Popup) (w : World) : World :=
  if 0 <? popup_coinCount p then
    CacheMemento.saveState (popup_key p) (popup_state p)
      (set_coinCount (popup_state p) (λ _, 0)
         (set_playerCoins (playerCoins w + popup_coinCount p) w))
  else w.

(** Click handler of the deposit button. *)
Definition deposit (p : Popup) (w : World) : World :=
  if 0 <? playerCoins w then
    CacheMemento.saveState (popup_key p) (popup_state p)
      (set_playerCoins 0
         (set_coinCount (popup_state p) (λ c, c + playerCoins w) w))
  else w.

(** [spawnCache(lat, lng)]: adds the circle to the map. *)
Definition spawnCache (lat lng : Q) (w : World) : World :=
  set_circles (circles w ++ [latLng lat lng]) w.

Definition scan (r : Z) (w : World) : World :=
  let playerLat := lat (playerLocation w) in
  let playerLng := lng (playerLocation w) in
  for_lt (- r) r (λ i,
    for_lt (- r) r (λ j w,
      let lat := (playerLat + inject_Z i * TILE_DEGREES)%Q in
      let lng := (playerLng + inject_Z j * TILE_DEGREES)%Q in
      if Qltb (luck (Array_toString
                 [coordinate_toString lat; coordinate_toString lng]))
              CACHE_SPAWN_PROBABILITY
      then spawnCache lat lng w else w)) w.

Definition updateCaches (w : World) : World :=
  scan NEIGHBORHOOD_SIZE (set_circles [] w).

(** What the four movement buttons and the position watcher have in
    common: move the player, record the point, scan, save. *)
Definition moveTo (newLocation : LatLng) (w : World) : World :=
  let w1 := setLocation newLocation w in
  let w2 := set_movementHistory (movementHistory w1 ++ [playerLocation w1]) w1 in
  saveState (updateCaches w2).

Definition north (w : World) : World :=
  moveTo (latLng (lat (playerLocation w) + TILE_DEGREES) (lng (playerLocation w))) w.
Definition south (w : World) : World :=
  moveTo (latLng (lat (playerLocation w) - TILE_DEGREES) (lng (playerLocation w))) w.
Definition west (w : World) : World :=
  moveTo (latLng (lat (playerLocation w)) (lng (playerLocation w) - TILE_DEGREES)) w.
Definition east (w : World) : World :=
  moveTo (latLng (lat (playerLocation w)) (lng (playerLocation w) + TILE_DEGREES)) w.

(** The reset button, once the player has typed "yes". *)
Definition reset (w : World) : World :=
  saveState
    (updateCaches
       (CacheMemento.clearStates
          (set_movementHistory [] (set_counters 0 0 w)))).

(** The state in which the script, started on a browser whose slot holds
    [slot], reaches the call of [loadState]. *)
Definition boot (slot : option blob) : World :=
  updateCaches (mkWorld initialLocation 0 0 [] ∅ [] [] slot).

(** A running game: the state of the script and the popups built so far
    (all kept clickable, as for [src/main.ts]). *)
Record Session := mkSession { world : World; popups : list Popup }.

Definition start : Session := mkSession (boot None) [].

(** One user action or position update, or a reload of the page: the
    script starts again on the slot as it is and runs to the end of
    [loadState]; the popups of the page before are gone. [Math.random()]
    returns a number in [[0, 1)]. *)
Inductive step : Session → Session → Prop :=
| step_north s : step s (mkSession (north (world s)) (popups s))
| step_south s : step s (mkSession (south (world s)) (popups s))
| step_west s : step s (mkSession (west (world s)) (popups s))
| step_east s : step s (mkSession (east (world s)) (popups s))
| step_position l s : step s (mkSession (moveTo l (world s)) (popups s))
| step_reset s : step s (mkSession (reset (world s)) (popups s))
| step_open l random s :
    l ∈ circles (world s) → (0 <= random)%Q → (random < 1)%Q →
    step s (mkSession (bindPopup (lat l) (lng l) random (world s)).2
                      ((bindPopup (lat l) (lng l) random (world s)).1 :: popups s))
| step_collect p s :
    p ∈ popups s → step s (mkSession (collect p (world s)) (popups s))
| step_deposit p s :
    p ∈ popups s → step s (mkSession (deposit p (world s)) (popups s))
| step_reload s w' :
    loadState (boot (localStorage (world s))) = Returned w' →
    step s (mkSession w' []).

Definition reachable (s : Session) : Prop := rtc step start s.

(** *** Notions used to state the properties of this build *)

(** What the slot holds, if anything, was written by [saveState] in a state
    without a negative counter. *)
Definition saved_ok (w : World) : Prop :=
  ∀ b, localStorage w = Some b →
    ∃ w0, b = Parsed (snapshot w0)
        ∧ 0 ≤ playerCoins w0
        ∧ ∀ k r, store_view w0 !! k = Some r → 0 ≤ coinCount r.

(** No counter is negative: the wallet, the coin count of every object, the
    coin count every popup closed over, and the counters saved in the slot;
    and no reference dangles, from the store or from a popup. *)
Record session_inv (s : Session) : Prop := mk_session_inv {
  inv_wallet : 0 ≤ playerCoins (world s);
  inv_objects : Forall (λ r, 0 ≤ coinCount r) (objects (world s));
  inv_popups : Forall (λ p, 0 ≤ popup_coinCount p) (popups s);
  inv_store : store_wf (world s);
  inv_refs : Forall (λ p, (popup_state p < length (objects (world s)))%nat) (popups s);
  inv_saved : saved_ok (world s)
}.

(** The player is moved to one position after the other. *)
Definition track (ls : list LatLng) (w : World) : World :=
  foldl (λ w l, moveTo l w) w ls.

(** The template literal [`${lat}:${lng}`]. *)
Definition key (lat lng : Q) : string :=
  coordinate_toString lat +:+ ":" +:+ coordinate_toString lng.

(** What one round of the inner loop of [updateCaches] adds to the map,
    for the player at [l]. *)
Definition spawned_at (l : LatLng) (i j : Z) : list LatLng :=
  let lat := (lat l + inject_Z i * TILE_DEGREES)%Q in
  let lng := (lng l + inject_Z j * TILE_DEGREES)%Q in
  if Qltb (luck (Array_toString
             [coordinate_toString lat; coordinate_toString lng]))
          CACHE_SPAWN_PROBABILITY
  then [latLng lat lng] else [].

Definition spawned (r : Z) (l : LatLng) : list LatLng :=
  i ← seqZ (- r) (Z.of_nat (Z.to_nat (r - - r)));
  j ← seqZ (- r) (Z.of_nat (Z.to_nat (r - - r)));
  spawned_at l i j.

(** The object that the popup callback builds for a point the store does
    not know. *)
Definition generated (lat lng random : Q) : CacheRecord :=
  mkCacheRecord
    (Math_floor (luck (Array_toString
       [coordinate_toString lat; coordinate_toString lng; "initialValue"]) * 100))
    (generateCoins random).

End WithOracle.

End Memento.

(** ** The coordinate arithmetic in binary64

    JavaScript's numbers are the binary64 floating-point numbers of IEEE
    754; [+], [*] and [/] round the exact result to the nearest of them,
    ties to the even mantissa. This module computes as JavaScript does, on
    [spec_float], the Standard Library's specification of floating-point
    arithmetic, at precision 53 with exponents up to 1024: a finite number
    [S754_finite s m e] is [m * 2^e], negated when [s] is set. *)
Module Binary64.

Definition number : Type := SpecFloat.spec_float.

Definition prec : Z := 53.
Definition emax : Z := 1024.

Definition add : number → number → number := SpecFloat.SFadd prec emax.
Definition mul : number → number → number := SpecFloat.SFmul prec emax.
Definition div : number → number → number := SpecFloat.SFdiv prec emax.
Definition opp : number → number := SpecFloat.SFopp.

(** The number of an integer, exact for the integers below 2^53. *)
Definition of_Z (z : Z) : number :=
  SpecFloat.binary_normalize prec emax z 0 false.

(** The number that the decimal literal [m / 10^k] stands for, for [m] and
    [10^k] below 2^53: the binary64 number nearest to the fraction, which is
    the rounded quotient of the two integers. *)
Definition decimal (m k : Z) : number := div (of_Z m) (of_Z (10 ^ k)).

(** [Math.floor] on a finite number; [None] on [NaN] and the infinities,
    which [Math.floor] returns as they are. *)
Definition Math_floor (x : number) : option Z :=
  match x with
  | SpecFloat.S754_zero _ => Some 0
  | SpecFloat.S754_finite s m e =>
      Some (Z.shiftl (if s then Z.neg m else Z.pos m) e)
  | _ => None
  end.

(** [TILE_DEGREES = 1e-4], which is also [cellSize = 0.0001]. *)
Definition TILE_DEGREES : number := decimal 1 4.

(** The latitude [36.98949379578401] of [OAKES_CLASSROOM]. *)
Definition OAKES_CLASSROOM_lat : number := decimal 3698949379578401 14.

(** [Math.floor(lat / TILE_DEGREES)] of [_latLngToCell] and
    [Math.floor(lat / cellSize)] of [getCoordinate]. *)
Definition cellIndex (x : number) : option Z := Math_floor (div x TILE_DEGREES).

(** [currentLocation.lat + TILE_DEGREES]: the latitude after a click on the
    north button of the build with [CacheMemento]. *)
Definition north (playerLat : number) : number := add playerLat TILE_DEGREES.

(** [playerLat + i * TILE_DEGREES]: the latitude that [updateCaches] of that
    build gives to the offset [i]. *)
Definition offset (playerLat : number) (i : Z) : number :=
  add playerLat (mul (of_Z i) TILE_DEGREES).

(** The key of its existence test, [[lat, lng].toString()], for a notation
    [toString] of the numbers. *)
Definition key (toString : number → string) (lat lng : number) : string :=
  Array_toString [toString lat; toString lng].

End Binary64.

(** ** Stand-ins used to run the model on examples *)
Module Sample.

(** A stand-in for the oracle: 0.05 on the short keys of the existence
    test, 0.73 on the longer keys that carry a purpose tag. *)
Definition luck (s : string) : Q :=
  if (String.length s <? 20)%nat then 5 # 100 else 73 # 100.

(** An oracle that finds every cell lucky. *)
Definition always_lucky (s : string) : Q := 0%Q.

(** The same stand-in for the cells around (0,0), whose keys are shorter:
    0.05 on the keys of the existence test, 0.73 on the keys with a tag. *)
Definition luck_near_origin (s : string) : Q :=
  if (String.length s <? 8)%nat then 5 # 100 else 73 # 100.

(** Decimal notation of the integer part of a number: JavaScript's own
    notation on the integer-valued coordinates the examples use. *)
Definition coordinate_toString (q : Q) : string := pretty (Qfloor q).

End Sample.

(** ** Facts on the counting loops *)

(** A loop that only appends to an output list appends the concatenation of
    what each round appends, for the counter values in increasing order. *)
Lemma for_count_collect {S A : Type} (out : S → list A) (put : S → list A → S)
    (f : Z → list A) (body : Z → S → S) :
  (∀ s l, out (put s l) = l) →
  (∀ s l l', put (put s l) l' = put s l') →
  (∀ s, put s (out s) = s) →
  (∀ x s, body x s = put s (out s ++ f x)) →
  ∀ n lo s,
    for_count lo n body s
    = put s (out s ++ mbind f (seqZ lo (Z.of_nat n))).
Proof.
  intros Hout Hput Hid Hbody. induction n as [|n IH]; intros lo s.
  - simpl. by rewrite app_nil_r, Hid.
  - rewrite Nat2Z.inj_succ, seqZ_cons by lia. simpl.
    rewrite IH, Hbody, Hput, Hout, <-app_assoc, Z.pred_succ.
    by replace (Z.succ lo) with (lo + 1) by lia.
Qed.

(** ** Facts on [src/main.ts] *)
Module MainFacts.
Import Main.

Lemma Qltb_lt (a b : Q) : Qltb a b = true ↔ (a < b)%Q.
Proof. unfold Qltb, Qlt. apply Z.ltb_lt. Qed.

Lemma cacheKey_toString (i j : Z) :
  Array_toString [Number_toString i; Number_toString j] = cacheKey i j.
Proof. reflexivity. Qed.

Section WithOracle.

Variable luck : string → Q.

Lemma scan_spec (r : Z) (pc : Cell) (w : World) :
  scan luck r pc w = set_rects w (rects w ++ spawned luck r pc).
Proof.
  unfold scan, for_le.
  apply (for_count_collect rects set_rects); try by intros [].
  intros i w'.
  apply (for_count_collect rects set_rects); try by intros [].
  intros j w''. unfold spawned_at, spawnCache.
  destruct (Qltb _ _); [done|]. destruct w''; simpl. by rewrite app_nil_r.
Qed.

Lemma elem_of_spawned_at (c : Cell) (i j : Z) :
  c ∈ spawned_at luck i j ↔
    c = mkCell i j ∧ (luckValue luck i j < CACHE_SPAWN_PROBABILITY)%Q.
Proof.
  unfold spawned_at. rewrite <-Qltb_lt. destruct (Qltb _ _).
  - rewrite list_elem_of_singleton. split; [by intros ->|by intros [-> _]].
  - rewrite elem_of_nil. split; [done|by intros [_ ?]].
Qed.

Lemma elem_of_spawned (r : Z) (pc c : Cell) :
  c ∈ spawned luck r pc ↔
    cell_i pc - r ≤ cell_i c ≤ cell_i pc + r ∧
    cell_j pc - r ≤ cell_j c ≤ cell_j pc + r ∧
    (luckValue luck (cell_i c) (cell_j c) < CACHE_SPAWN_PROBABILITY)%Q.
Proof.
  unfold spawned. rewrite list_elem_of_bind. split.
  - intros (i & Hc & Hi). apply list_elem_of_bind in Hc as (j & Hc & Hj).
    apply elem_of_seqZ in Hi, Hj.
    apply elem_of_spawned_at in Hc as [-> Hl]. simpl.
    repeat split; try lia; done.
  - intros (Hi & Hj & Hl). destruct c as [i j]; simpl in *.
    exists i. split; [|apply elem_of_seqZ; lia].
    apply list_elem_of_bind. exists j. split; [|apply elem_of_seqZ; lia].
    by apply elem_of_spawned_at.
Qed.

(** No cell is spawned twice in one scan. *)
Lemma NoDup_spawned (r : Z) (pc : Cell) : NoDup (spawned luck r pc).
Proof.
  unfold spawned. apply NoDup_bind; [| |apply NoDup_seqZ].
  - intros i1 i2 c _ _ H1 H2.
    apply list_elem_of_bind in H1 as (j1 & H1 & _).
    apply list_elem_of_bind in H2 as (j2 & H2 & _).
    apply elem_of_spawned_at in H1 as [-> _].
    apply elem_of_spawned_at in H2 as [[= ? ?] _]. done.
  - intros i _. apply NoDup_bind; [| |apply NoDup_seqZ].
    + intros j1 j2 c _ _ H1 H2.
      apply elem_of_spawned_at in H1 as [-> _].
      apply elem_of_spawned_at in H2 as [[= ?] _]. done.
    + intros j _. unfold spawned_at.
      destruct (Qltb _ _); [apply NoDup_singleton|apply NoDup_nil_2].
Qed.

Lemma updateCaches_spec (w : World) :
  updateCaches luck w
  = set_rects w (spawned luck NEIGHBORHOOD_SIZE
       (_latLngToCell (lat (playerLocation w)) (lng (playerLocation w)))).
Proof. unfold updateCaches. rewrite scan_spec. by destruct w. Qed.

(** *** The popup callback *)

Lemma bindPopup_fresh (i j : Z) (w : World) :
  cacheState w !! cacheKey i j = None →
  bindPopup luck i j w
  = (mkPopup i j (cacheKey i j)
       (pointValue (initialRecord luck i j)) (coinCount (initialRecord luck i j)),
     set_cacheState w (<[cacheKey i j := initialRecord luck i j]> (cacheState w))).
Proof.
  intros Hnone. unfold bindPopup. rewrite Hnone. simpl.
  by rewrite lookup_insert_eq.
Qed.

Lemma bindPopup_known (i j : Z) (w : World) (r : CacheRecord) :
  cacheState w !! cacheKey i j = Some r →
  bindPopup luck i j w
  = (mkPopup i j (cacheKey i j) (pointValue r) (coinCount r), w).
Proof. intros Hsome. unfold bindPopup. by rewrite Hsome; simpl; rewrite Hsome. Qed.

(** *** The two click handlers *)

Lemma collect_taken (p : Popup) (w : World) (r : CacheRecord) :
  cacheState w !! popup_cacheKey p = Some r → 0 < coinCount r →
  collect p w
  = Some (mkWorld (playerLocation w) (playerPoints w + popup_pointValue p)
            (playerCoins w + 1)
            (<[popup_cacheKey p := mkCacheRecord (pointValue r) (coinCount r - 1)]>
               (cacheState w))
            (rects w)).
Proof.
  intros Hr Hpos. unfold collect. rewrite Hr.
  by destruct (Z.ltb_spec 0 (coinCount r)); [|lia].
Qed.

Lemma collect_refused (p : Popup) (w : World) (r : CacheRecord) :
  cacheState w !! popup_cacheKey p = Some r → coinCount r ≤ 0 →
  collect p w = Some w.
Proof.
  intros Hr Hpos. unfold collect. rewrite Hr.
  by destruct (Z.ltb_spec 0 (coinCount r)); [lia|].
Qed.

Lemma deposit_given (p : Popup) (w : World) (r : CacheRecord) :
  cacheState w !! popup_cacheKey p = Some r → 0 < playerCoins w →
  deposit p w
  = Some (mkWorld (playerLocation w) (playerPoints w) (playerCoins w - 1)
            (<[popup_cacheKey p := mkCacheRecord (pointValue r) (coinCount r + 1)]>
               (cacheState w))
            (rects w)).
Proof.
  intros Hr Hpos. unfold deposit. rewrite Hr.
  by destruct (Z.ltb_spec 0 (playerCoins w)); [|lia].
Qed.

Lemma deposit_refused (p : Popup) (w : World) :
  playerCoins w ≤ 0 → deposit p w = Some w.
Proof.
  intros Hpos. unfold deposit.
  by destruct (Z.ltb_spec 0 (playerCoins w)); [lia|].
Qed.

(** [n] collects in a row from a cache that holds at least [n] coins. *)
Lemma clicks_collect (n : nat) (p : Popup) (w : World) (r : CacheRecord) :
  cacheState w !! popup_cacheKey p = Some r → Z.of_nat n ≤ coinCount r →
  clicks (collect p) n w
  = Some (mkWorld (playerLocation w)
            (playerPoints w + Z.of_nat n * popup_pointValue p)
            (playerCoins w + Z.of_nat n)
            (<[popup_cacheKey p :=
                 mkCacheRecord (pointValue r) (coinCount r - Z.of_nat n)]>
               (cacheState w))
            (rects w)).
Proof.
  revert w r. induction n as [|n IH]; intros w r Hr Hn.
  - simpl. rewrite !Z.add_0_r, Z.sub_0_r. destruct w, r; simpl in *.
    by rewrite insert_id.
  - simpl. rewrite (collect_taken p w r) by (done || lia).
    erewrite IH; [|apply lookup_insert_eq|simpl; lia]. simpl.
    rewrite insert_insert_eq. do 2 f_equal; [lia..|]. do 2 f_equal. lia.
Qed.

(** [n] deposits in a row from a wallet that holds at least [n] coins. *)
Lemma clicks_deposit (n : nat) (p : Popup) (w : World) (r : CacheRecord) :
  cacheState w !! popup_cacheKey p = Some r → Z.of_nat n ≤ playerCoins w →
  clicks (deposit p) n w
  = Some (mkWorld (playerLocation w) (playerPoints w)
            (playerCoins w - Z.of_nat n)
            (<[popup_cacheKey p :=
                 mkCacheRecord (pointValue r) (coinCount r + Z.of_nat n)]>
               (cacheState w))
            (rects w)).
Proof.
  revert w r. induction n as [|n IH]; intros w r Hr Hn.
  - simpl. rewrite Z.add_0_r, Z.sub_0_r. destruct w, r; simpl in *.
    by rewrite insert_id.
  - simpl. rewrite (deposit_given p w r) by (done || lia).
    erewrite IH; [|apply lookup_insert_eq|simpl; lia]. simpl.
    rewrite insert_insert_eq. do 2 f_equal; [lia|]. do 2 f_equal. lia.
Qed.

(** *** The invariant of the running game *)

Lemma Math_floor_nonneg (q : Q) : (0 <= q)%Q → 0 ≤ Math_floor q.
Proof.
  intros Hq. unfold Math_floor.
  change 0 with (Qfloor (inject_Z 0)) at 1. by apply Qfloor_resp_le.
Qed.

Lemma cacheState_updateCaches (w : World) :
  cacheState (updateCaches luck w) = cacheState w.
Proof. by rewrite updateCaches_spec. Qed.

Lemma playerCoins_updateCaches (w : World) :
  playerCoins (updateCaches luck w) = playerCoins w.
Proof. by rewrite updateCaches_spec. Qed.

Lemma playerPoints_updateCaches (w : World) :
  playerPoints (updateCaches luck w) = playerPoints w.
Proof. by rewrite updateCaches_spec. Qed.

Lemma move_keeps (d : direction) (w : World) :
  cacheState (move luck d w) = cacheState w
  ∧ playerCoins (move luck d w) = playerCoins w
  ∧ playerPoints (move luck d w) = playerPoints w.
Proof.
  destruct d; unfold move, movePlayer;
    by rewrite cacheState_updateCaches, playerCoins_updateCaches,
               playerPoints_updateCaches.
Qed.

Lemma session_inv_start : session_inv (start luck).
Proof.
  split; unfold start, initialWorld; simpl.
  - by rewrite playerCoins_updateCaches.
  - intros k r. rewrite cacheState_updateCaches. simpl. by rewrite lookup_empty.
  - intros p Hp. by apply elem_of_nil in Hp.
Qed.

(** Every popup stays bound to its cache, whatever the oracle. *)
Lemma popups_bound_step (s s' : Session) :
  (∀ p, p ∈ popups s → popup_bound (world s) p) →
  step luck s s' →
  ∀ p, p ∈ popups s' → popup_bound (world s') p.
Proof.
  intros Hp Hstep.
  destruct Hstep as [d s|c s Hrect|p s w' Hin Hrun|p s w' Hin Hrun].
  - destruct (move_keeps d (world s)) as (Hst & _ & _).
    simpl. unfold popup_bound. by rewrite Hst.
  - destruct c as [i j]; cbn [cell_i cell_j].
    destruct (cacheState (world s) !! cacheKey i j) as [r|] eqn:Hr.
    + rewrite (bindPopup_known _ _ _ r Hr). simpl.
      intros p [->|Hin]%elem_of_cons; [by exists r|auto].
    + rewrite (bindPopup_fresh _ _ _ Hr). simpl.
      intros p [->|Hin]%elem_of_cons.
      { exists (initialRecord luck i j). simpl. by rewrite lookup_insert_eq. }
      destruct (Hp p Hin) as (r & Hr' & Hpv). exists r. split; [|done].
      simpl. rewrite lookup_insert_ne; [done|]. intros Heq. congruence.
  - destruct (Hp p Hin) as (r & Hr & Hpv).
    destruct (Z.lt_ge_cases 0 (coinCount r)) as [Hpos|Hzero].
    + rewrite (collect_taken p _ r Hr Hpos) in Hrun. injection Hrun as <-.
      simpl. intros q Hq. destruct (Hp q Hq) as (rq & Hrq & Hpq).
      destruct (decide (popup_cacheKey p = popup_cacheKey q)) as [Heq|Hne].
      { exists (mkCacheRecord (pointValue r) (coinCount r - 1)).
        simpl. rewrite Heq, lookup_insert_eq. split; [done|]. simpl. congruence. }
      { exists rq. simpl. by rewrite lookup_insert_ne. }
    + rewrite (collect_refused p _ r Hr Hzero) in Hrun. by injection Hrun as <-.
  - destruct (Hp p Hin) as (r & Hr & Hpv).
    destruct (Z.lt_ge_cases 0 (playerCoins (world s))) as [Hpos|Hzero].
    + rewrite (deposit_given p _ r Hr Hpos) in Hrun. injection Hrun as <-.
      simpl. intros q Hq. destruct (Hp q Hq) as (rq & Hrq & Hpq).
      destruct (decide (popup_cacheKey p = popup_cacheKey q)) as [Heq|Hne].
      { exists (mkCacheRecord (pointValue r) (coinCount r + 1)).
        simpl. rewrite Heq, lookup_insert_eq. split; [done|]. simpl. congruence. }
      { exists rq. simpl. by rewrite lookup_insert_ne. }
    + rewrite (deposit_refused p _ Hzero) in Hrun. by injection Hrun as <-.
Qed.

Lemma popups_bound_reachable (s : Session) :
  reachable luck s → ∀ p, p ∈ popups s → popup_bound (world s) p.
Proof.
  unfold reachable. revert s.
  apply (rtc_ind_r (λ s, ∀ p, p ∈ popups s → popup_bound (world s) p) (start luck)).
  - intros p Hp. by apply elem_of_nil in Hp.
  - intros s s' _ Hstep Hinv. by apply (popups_bound_step s s').
Qed.

Section NonNegativeOracle.

Hypothesis luck_nonneg : ∀ k, (0 <= luck k)%Q.

Lemma initialRecord_nonneg (i j : Z) : 0 ≤ coinCount (initialRecord luck i j).
Proof.
  unfold initialRecord, coinCount.
  apply Math_floor_nonneg, Qmult_le_0_compat; [apply luck_nonneg|done].
Qed.

Lemma session_inv_step (s s' : Session) :
  session_inv s → step luck s s' → session_inv s'.
Proof.
  intros [Hw Hc Hp] Hstep.
  split; [| |by apply (popups_bound_step s s')].
  - destruct Hstep as [d s|c s Hrect|p s w' Hin Hrun|p s w' Hin Hrun].
    + destruct (move_keeps d (world s)) as (_ & Hco & _). simpl. by rewrite Hco.
    + unfold bindPopup. simpl. by destruct (cacheState (world s) !! _).
    + destruct (Hp p Hin) as (r & Hr & _).
      destruct (Z.lt_ge_cases 0 (coinCount r)) as [Hpos|Hzero].
      * rewrite (collect_taken p _ r Hr Hpos) in Hrun. injection Hrun as <-.
        simpl. lia.
      * rewrite (collect_refused p _ r Hr Hzero) in Hrun. by injection Hrun as <-.
    + destruct (Hp p Hin) as (r & Hr & _).
      destruct (Z.lt_ge_cases 0 (playerCoins (world s))) as [Hpos|Hzero].
      * rewrite (deposit_given p _ r Hr Hpos) in Hrun. injection Hrun as <-.
        simpl. lia.
      * rewrite (deposit_refused p _ Hzero) in Hrun. by injection Hrun as <-.
  - destruct Hstep as [d s|c s Hrect|p s w' Hin Hrun|p s w' Hin Hrun].
    + destruct (move_keeps d (world s)) as (Hst & _ & _). simpl. by rewrite Hst.
    + destruct c as [i j]; cbn [cell_i cell_j].
      destruct (cacheState (world s) !! cacheKey i j) as [r|] eqn:Hr.
      * by rewrite (bindPopup_known _ _ _ r Hr).
      * rewrite (bindPopup_fresh _ _ _ Hr). simpl.
        intros k r [[<- <-]|[Hne Hk]]%lookup_insert_Some;
          [apply initialRecord_nonneg|eauto].
    + destruct (Hp p Hin) as (r & Hr & _).
      destruct (Z.lt_ge_cases 0 (coinCount r)) as [Hpos|Hzero].
      * rewrite (collect_taken p _ r Hr Hpos) in Hrun. injection Hrun as <-.
        simpl.
        intros k r' [[<- <-]|[Hne Hk]]%lookup_insert_Some; simpl; [lia|eauto].
      * rewrite (collect_refused p _ r Hr Hzero) in Hrun. by injection Hrun as <-.
    + destruct (Hp p Hin) as (r & Hr & _).
      destruct (Z.lt_ge_cases 0 (playerCoins (world s))) as [Hpos|Hzero].
      * rewrite (deposit_given p _ r Hr Hpos) in Hrun. injection Hrun as <-.
        simpl.
        intros k r' [[<- <-]|[Hne Hk]]%lookup_insert_Some; simpl;
          [pose proof (Hc _ _ Hr); lia|eauto].
      * rewrite (deposit_refused p _ Hzero) in Hrun. by injection Hrun as <-.
Qed.

Lemma session_inv_reachable (s : Session) : reachable luck s → session_inv s.
Proof.
  unfold reachable. revert s.
  apply (rtc_ind_r session_inv (start luck)); [apply session_inv_start|].
  intros s s' _ Hstep Hinv. by apply (session_inv_step s s').
Qed.

End NonNegativeOracle.

End WithOracle.
End MainFacts.

(** ** Facts on [src/example.ts] *)
Module ExampleFacts.
Import Example.

Section WithOracle.

Variable luck : string → Q.

Lemma scan_spec_lt (r : Z) (rects : list Cell) :
  scan luck r rects = rects ++ spawned luck r.
Proof.
  unfold scan, for_lt.
  apply (for_count_collect (λ l : list Cell, l) (λ _ l, l)); try done.
  intros i l.
  apply (for_count_collect (λ l : list Cell, l) (λ _ l, l)); try done.
  intros j l'. unfold spawned_at, spawnCache.
  destruct (Qltb _ _); [done|]. by rewrite app_nil_r.
Qed.

Lemma elem_of_spawned_lt (r : Z) (c : Cell) :
  c ∈ spawned luck r ↔
    - r ≤ cell_i c < r ∧ - r ≤ cell_j c < r ∧
    (luckValue luck (cell_i c) (cell_j c) < CACHE_SPAWN_PROBABILITY)%Q.
Proof.
  assert (Hat : ∀ i j, c ∈ spawned_at luck i j ↔
            c = mkCell i j ∧ (luckValue luck i j < CACHE_SPAWN_PROBABILITY)%Q).
  { intros i j. unfold spawned_at. rewrite <-MainFacts.Qltb_lt.
    destruct (Qltb _ _).
    - rewrite list_elem_of_singleton. split; [by intros ->|by intros [-> _]].
    - rewrite elem_of_nil. split; [done|by intros [_ ?]]. }
  unfold spawned. rewrite list_elem_of_bind. split.
  - intros (i & Hc & Hi). apply list_elem_of_bind in Hc as (j & Hc & Hj).
    apply elem_of_seqZ in Hi, Hj. apply Hat in Hc as [-> Hl]. simpl.
    repeat split; try lia; done.
  - intros (Hi & Hj & Hl). destruct c as [i j]; simpl in *.
    exists i. split; [|apply elem_of_seqZ; lia].
    apply list_elem_of_bind. exists j. split; [|apply elem_of_seqZ; lia].
    by apply Hat.
Qed.

Lemma elem_of_rects (c : Cell) :
  c ∈ rects luck ↔
    - NEIGHBORHOOD_SIZE ≤ cell_i c < NEIGHBORHOOD_SIZE ∧
    - NEIGHBORHOOD_SIZE ≤ cell_j c < NEIGHBORHOOD_SIZE ∧
    (luckValue luck (cell_i c) (cell_j c) < CACHE_SPAWN_PROBABILITY)%Q.
Proof. unfold rects. rewrite scan_spec_lt. apply elem_of_spawned_lt. Qed.

End WithOracle.
End ExampleFacts.

(** ** Decimal notation: which characters it uses *)

Lemma occurs_app (c : ascii) (s t : string) :
  occurs c (s +:+ t) ↔ occurs c s ∨ occurs c t.
Proof.
  induction s as [|a s IH]; simpl; [tauto|]. rewrite IH. tauto.
Qed.

Lemma occurs_pretty_N_go (c : ascii) (x : N) (s : string) :
  occurs c (pretty_N_go x s) → occurs c s ∨ digit c.
Proof.
  revert s. induction (N.lt_wf_0 x) as [x _ IH]; intros s.
  destruct (decide (x = 0%N)) as [->|Hx]; [rewrite pretty_N_go_0; tauto|].
  rewrite pretty_N_go_step by lia. intros Hocc.
  apply IH in Hocc; [|apply N.div_lt; lia].
  destruct Hocc as [[<-|Hocc]|Hd]; [right; by eexists|by left|by right].
Qed.

Lemma occurs_pretty_N (c : ascii) (x : N) : occurs c (pretty x) → digit c.
Proof.
  unfold pretty, pretty_N. destruct (decide (x = 0%N)) as [->|Hx].
  - simpl. intros [<-|[]]. by exists 0%N.
  - intros [[]|Hd]%occurs_pretty_N_go. done.
Qed.

Lemma occurs_pretty_Z (c : ascii) (z : Z) :
  occurs c (pretty z) → c = "-"%char ∨ digit c.
Proof.
  destruct z as [|x|x]; unfold pretty, pretty_Z.
  - simpl. intros [<-|[]]. right. by exists 0%N.
  - intros Hd%occurs_pretty_N. by right.
  - simpl. intros [<-|Hd%occurs_pretty_N]; [by left|by right].
Qed.

(** A character that is neither a digit nor the sign separates two decimal
    numbers without ambiguity. *)
Lemma separated_inj (c : ascii) (s1 s2 t1 t2 : string) :
  ¬ occurs c s1 → ¬ occurs c s2 →
  s1 +:+ String c t1 = s2 +:+ String c t2 → s1 = s2 ∧ t1 = t2.
Proof.
  revert s2. induction s1 as [|a s1 IH]; intros [|b s2] H1 H2 Heq;
    simpl in *.
  - by injection Heq.
  - injection Heq as <- _. tauto.
  - injection Heq as -> _. tauto.
  - injection Heq as -> Heq. apply IH in Heq as [-> ->]; tauto.
Qed.

Lemma length_string_app (s t : string) :
  String.length (s +:+ t) = (String.length s + String.length t)%nat.
Proof. induction s as [|a s IH]; simpl; [done|by rewrite IH]. Qed.

(** Two texts that become equal when the same text is appended are equal. *)
Lemma string_app_inv_tail (s1 s2 t : string) : s1 +:+ t = s2 +:+ t → s1 = s2.
Proof.
  revert s2. induction s1 as [|a s1 IH]; intros [|b s2] Heq.
  - done.
  - apply (f_equal String.length) in Heq.
    rewrite !length_string_app in Heq. simpl in Heq. lia.
  - apply (f_equal String.length) in Heq.
    rewrite !length_string_app in Heq. simpl in Heq. lia.
  - simpl in Heq. injection Heq as -> Heq. f_equal. by apply IH.
Qed.

Lemma not_digit (c : ascii) :
  (∀ d : N, (d < 10)%N → c ≠ pretty_N_char d) → ¬ digit c.
Proof.
  intros Hc [d ->]. destruct (decide (d < 10)%N) as [Hd|Hd]; [by eapply Hc|].
  apply (Hc 9%N); [done|]. unfold pretty_N_char.
  destruct d as [|p]; [lia|].
  do 4 (destruct p as [p|p|]; try lia; try done).
Qed.

(** ** Facts on the coordinate flyweight *)
Module FlyweightFacts.
Import Flyweight.

Lemma colon_not_in_number (z : Z) : ¬ occurs ":"%char (Number_toString z).
Proof.
  intros [Hc|Hd]%occurs_pretty_Z; [done|].
  revert Hd. apply not_digit. intros d Hd. unfold pretty_N_char.
  by repeat case_match.
Qed.

(** Two cells have the same key only if they are the same cell. *)
Lemma key_inj (i j i' j' : Z) : key i j = key i' j' → i = i' ∧ j = j'.
Proof.
  unfold key. intros Heq.
  apply (separated_inj ":"%char) in Heq as [Hi Hj];
    [|apply colon_not_in_number..].
  split; by apply (inj pretty).
Qed.

Lemma wf_empty : wf empty.
Proof. intros k a. unfold empty. simpl. by rewrite lookup_empty. Qed.

(** What a call does, by cases on whether the cell is known. *)
Lemma getCoordinate_known (lat lng : Q) (R : Registry) (a : nat) :
  coordinates R !! key (Math_floor (lat / cellSize)) (Math_floor (lng / cellSize))
    = Some a →
  getCoordinate lat lng R = (Some a, R).
Proof.
  intros Hk. unfold getCoordinate. rewrite decide_True by (by rewrite Hk).
  by rewrite Hk.
Qed.

Lemma getCoordinate_new (lat lng : Q) (R : Registry) :
  let i := Math_floor (lat / cellSize) in
  let j := Math_floor (lng / cellSize) in
  coordinates R !! key i j = None →
  getCoordinate lat lng R
  = (Some (length (objects R)),
     mkRegistry (<[key i j := length (objects R)]> (coordinates R))
                (objects R ++ [mkCell i j])).
Proof.
  intros i j Hk. unfold getCoordinate. fold i j.
  rewrite decide_False by (rewrite Hk; by intros [? ?]).
  cbn [coordinates]. by rewrite lookup_insert_eq.
Qed.

Lemma wf_getCoordinate (lat lng : Q) (R : Registry) :
  wf R → wf (getCoordinate lat lng R).2.
Proof.
  intros Hwf.
  destruct (coordinates R !! key (Math_floor (lat / cellSize))
                                 (Math_floor (lng / cellSize))) as [a|] eqn:Hk.
  - by rewrite (getCoordinate_known _ _ _ a Hk).
  - rewrite (getCoordinate_new _ _ _ Hk). unfold wf. cbn [coordinates objects snd].
    intros k a [[<- <-]|[Hne Hka]]%lookup_insert_Some.
    + eexists. split; [by apply list_lookup_middle|done].
    + destruct (Hwf k a Hka) as (c & Hc & ->). exists c. split; [|done].
      by apply lookup_app_l_Some.
Qed.

Lemma wf_reachable (R : Registry) : reachable R → wf R.
Proof.
  induction 1 as [|lat lng R _ IH]; [apply wf_empty|by apply wf_getCoordinate].
Qed.

Lemma reachable_calls (ps : list (Q * Q)) (R : Registry) :
  reachable R → reachable (calls ps R).
Proof.
  revert R. induction ps as [|p ps IH]; intros R HR; [done|].
  apply IH. by constructor.
Qed.

(** The factory never forgets nor replaces a cell. *)
Lemma getCoordinate_keeps (lat lng : Q) (R : Registry) (k : string) (a : nat) (c : Cell) :
  coordinates R !! k = Some a → objects R !! a = Some c →
  coordinates (getCoordinate lat lng R).2 !! k = Some a
  ∧ objects (getCoordinate lat lng R).2 !! a = Some c.
Proof.
  intros Hk Ha.
  destruct (coordinates R !! key (Math_floor (lat / cellSize))
                                 (Math_floor (lng / cellSize))) as [a'|] eqn:Hk'.
  - by rewrite (getCoordinate_known _ _ _ a' Hk').
  - rewrite (getCoordinate_new _ _ _ Hk'). cbn [coordinates objects snd]. split.
    + rewrite lookup_insert_ne; [done|]. intros <-. congruence.
    + by apply lookup_app_l_Some.
Qed.

Lemma calls_keep (ps : list (Q * Q)) (R : Registry) (k : string) (a : nat) (c : Cell) :
  coordinates R !! k = Some a → objects R !! a = Some c →
  coordinates (calls ps R) !! k = Some a ∧ objects (calls ps R) !! a = Some c.
Proof.
  revert R. induction ps as [|p ps IH]; intros R Hk Ha; [done|].
  destruct (getCoordinate_keeps p.1 p.2 R k a c Hk Ha) as [Hk' Ha'].
  by apply IH.
Qed.

(** A call returns a reference to an object that holds the cell of the
    point, and leaves that cell registered under the returned reference. *)
Lemma getCoordinate_spec (lat lng : Q) (R : Registry) :
  wf R →
  ∃ a, (getCoordinate lat lng R).1 = Some a
     ∧ coordinates (getCoordinate lat lng R).2
         !! key (Math_floor (lat / cellSize)) (Math_floor (lng / cellSize)) = Some a
     ∧ objects (getCoordinate lat lng R).2 !! a
         = Some (mkCell (Math_floor (lat / cellSize)) (Math_floor (lng / cellSize))).
Proof.
  intros Hwf.
  destruct (coordinates R !! key (Math_floor (lat / cellSize))
                                 (Math_floor (lng / cellSize))) as [a|] eqn:Hk.
  - rewrite (getCoordinate_known _ _ _ a Hk). exists a. cbn [fst snd].
    repeat split; [done|].
    destruct (Hwf _ _ Hk) as ([i j] & Hc & [-> ->]%key_inj). by simpl in Hc.
  - rewrite (getCoordinate_new _ _ _ Hk). eexists. cbn [coordinates objects fst snd].
    repeat split; [apply lookup_insert_eq|].
    by apply list_lookup_middle.
Qed.

End FlyweightFacts.

(** ** Facts on the build with [CacheMemento] *)
Module MementoFacts.
Import Memento.

Lemma Math_floor_bounds (q : Q) (lo hi : Z) :
  (inject_Z lo <= q)%Q → (q < inject_Z hi)%Q → lo ≤ Math_floor q < hi.
Proof.
  intros Hlo Hhi. unfold Math_floor. split.
  - rewrite <-(Qfloor_Z lo). by apply Qfloor_resp_le.
  - rewrite Zlt_Qlt. eapply Qle_lt_trans; [apply Qfloor_le|done].
Qed.

(** [generateCoins] yields 1 to 10 coins when [Math.random] keeps its
    promise of a value in [[0, 1)]. *)
Lemma generateCoins_range (random : Q) :
  (0 <= random)%Q → (random < 1)%Q → 1 ≤ generateCoins random ≤ 10.
Proof.
  intros H0 H1. unfold generateCoins.
  assert (0 ≤ Math_floor (random * 10) < 10); [|lia].
  apply Math_floor_bounds.
  - change (inject_Z 0) with (0 * 10)%Q. by apply Qmult_le_compat_r.
  - change (inject_Z 10) with (1 * 10)%Q. by apply Qmult_lt_compat_r.
Qed.

Section WithOracle.

Variable luck : string → Q.
Variable coordinate_toString : Q → string.

#[local] Abbreviation bindPopup := (Memento.bindPopup luck coordinate_toString) (only parsing).
#[local] Abbreviation generated := (Memento.generated luck coordinate_toString) (only parsing).
#[local] Abbreviation key := (Memento.key coordinate_toString) (only parsing).

Lemma memento_bindPopup_fresh (lat lng random : Q) (w : World) :
  CacheMemento.getState (key lat lng) w = None →
  bindPopup lat lng random w
  = (mkPopup lat lng (key lat lng) (length (objects w))
       (pointValue (generated lat lng random))
       (coinCount (generated lat lng random)),
     CacheMemento.saveState (key lat lng) (length (objects w))
       (new_object (generated lat lng random) w).2).
Proof.
  intros Hnone. unfold Memento.bindPopup, Memento.generated.
  change (coordinate_toString lat +:+ ":" +:+ coordinate_toString lng)
    with (key lat lng).
  rewrite Hnone.
  cbn [new_object fst snd CacheMemento.saveState objects].
  by rewrite list_lookup_middle.
Qed.

Lemma memento_bindPopup_known (lat lng random : Q) (w : World) (state : nat) (r : CacheRecord) :
  CacheMemento.getState (key lat lng) w = Some state →
  objects w !! state = Some r →
  bindPopup lat lng random w
  = (mkPopup lat lng (key lat lng) state (pointValue r) (coinCount r), w).
Proof.
  intros Hsome Hr. unfold Memento.bindPopup.
  change (coordinate_toString lat +:+ ":" +:+ coordinate_toString lng)
    with (key lat lng).
  by rewrite Hsome, Hr.
Qed.

(** *** The two click handlers *)

Lemma memento_collect_taken (p : Popup) (w : World) :
  0 < popup_coinCount p →
  collect p w
  = mkWorld (playerLocation w) (playerPoints w)
      (playerCoins w + popup_coinCount p)
      (alter (λ r, mkCacheRecord (pointValue r) 0) (popup_state p) (objects w))
      (<[popup_key p := popup_state p]> (cacheStates w))
      (movementHistory w) (circles w) (localStorage w).
Proof.
  intros Hpos. unfold collect.
  by destruct (Z.ltb_spec 0 (popup_coinCount p)); [|lia].
Qed.

Lemma memento_collect_refused (p : Popup) (w : World) :
  popup_coinCount p ≤ 0 → collect p w = w.
Proof.
  intros Hpos. unfold collect.
  by destruct (Z.ltb_spec 0 (popup_coinCount p)); [lia|].
Qed.

Lemma memento_deposit_given (p : Popup) (w : World) :
  0 < playerCoins w →
  deposit p w
  = mkWorld (playerLocation w) (playerPoints w) 0
      (alter (λ r, mkCacheRecord (pointValue r) (coinCount r + playerCoins w))
             (popup_state p) (objects w))
      (<[popup_key p := popup_state p]> (cacheStates w))
      (movementHistory w) (circles w) (localStorage w).
Proof.
  intros Hpos. unfold deposit.
  by destruct (Z.ltb_spec 0 (playerCoins w)); [|lia].
Qed.

Lemma memento_deposit_refused (p : Popup) (w : World) :
  playerCoins w ≤ 0 → deposit p w = w.
Proof.
  intros Hpos. unfold deposit.
  by destruct (Z.ltb_spec 0 (playerCoins w)); [lia|].
Qed.

(** What the store says about the cache of a popup after a click. *)
Lemma store_view_collect (p : Popup) (w : World) (r : CacheRecord) :
  0 < popup_coinCount p → objects w !! popup_state p = Some r →
  store_view (collect p w) !! popup_key p = Some (mkCacheRecord (pointValue r) 0).
Proof.
  intros Hpos Hr. rewrite memento_collect_taken by done. unfold store_view.
  rewrite lookup_omap. cbn [cacheStates objects].
  rewrite lookup_insert_eq. simpl.
  by rewrite list_lookup_alter_eq, Hr.
Qed.

Lemma store_view_deposit (p : Popup) (w : World) (r : CacheRecord) :
  0 < playerCoins w → objects w !! popup_state p = Some r →
  store_view (deposit p w) !! popup_key p
  = Some (mkCacheRecord (pointValue r) (coinCount r + playerCoins w)).
Proof.
  intros Hpos Hr. rewrite memento_deposit_given by done. unfold store_view.
  rewrite lookup_omap. cbn [cacheStates objects].
  rewrite lookup_insert_eq. simpl.
  by rewrite list_lookup_alter_eq, Hr.
Qed.

(** A second click on the collect button of the same popup pays the
    popup's constant again, although the cache is empty by then. *)
Lemma collect_twice (p : Popup) (w : World) (r : CacheRecord) :
  0 < popup_coinCount p → objects w !! popup_state p = Some r →
  store_view (collect p w) !! popup_key p = Some (mkCacheRecord (pointValue r) 0)
  ∧ playerCoins (collect p (collect p w))
    = playerCoins (collect p w) + popup_coinCount p
  ∧ store_view (collect p (collect p w)) !! popup_key p
    = Some (mkCacheRecord (pointValue r) 0).
Proof.
  intros Hpos Hr. split; [by apply store_view_collect|]. split.
  - by rewrite (memento_collect_taken p (collect p w)).
  - apply (store_view_collect p (collect p w) (mkCacheRecord (pointValue r) 0));
      [done|].
    rewrite memento_collect_taken by done. cbn [objects].
    by rewrite list_lookup_alter_eq, Hr.
Qed.

End WithOracle.

(** *** Persistence *)

Lemma as_integer_json_of_Z (n : Z) : as_integer (Some (json_of_Z n)) = Some n.
Proof. reflexivity. Qed.

Lemma leaflet_latLng_json (l : LatLng) :
  leaflet_latLng (js_get (json_of_LatLng l) "lat") (js_get (json_of_LatLng l) "lng")
  = Some l.
Proof. by destruct l. Qed.

Lemma js_get_snapshot (w : World) :
  js_get (snapshot w) "playerLocation" = Some (json_of_LatLng (playerLocation w))
  ∧ js_get (snapshot w) "playerPoints" = Some (json_of_Z (playerPoints w))
  ∧ js_get (snapshot w) "playerCoins" = Some (json_of_Z (playerCoins w))
  ∧ js_get (snapshot w) "cacheStates"
    = Some (JArr (json_of_entry <$> map_to_list (store_view w)))
  ∧ js_get (snapshot w) "movementHistory"
    = Some (JArr (json_of_LatLng <$> movementHistory w)).
Proof. repeat split. Qed.

Lemma map_latLng_json (h : list LatLng) :
  map_latLng (json_of_LatLng <$> h) = Mapped h.
Proof.
  induction h as [|l h IH]; [done|].
  rewrite fmap_cons. unfold map_latLng; fold map_latLng.
  change (json_of_LatLng l) with
    (JObj [("lat", JNum (lat l)); ("lng", JNum (lng l))]) at 1.
  cbv iota. rewrite leaflet_latLng_json, IH. done.
Qed.

(** Allocating an object and saving it under a key shows in the store as
    an insertion. *)
Lemma store_view_new_object (k : string) (r : CacheRecord) (w : World) :
  store_wf w →
  store_view (CacheMemento.saveState k (new_object r w).1 (new_object r w).2)
  = <[k := r]> (store_view w).
Proof.
  intros Hwf. apply map_eq. intros k'. unfold store_view.
  rewrite lookup_omap. cbn [new_object fst snd CacheMemento.saveState cacheStates objects].
  destruct (decide (k = k')) as [<-|Hne].
  - rewrite !lookup_insert_eq. simpl. by apply list_lookup_middle.
  - rewrite !lookup_insert_ne by done. rewrite lookup_omap.
    destruct (cacheStates w !! k') as [a|] eqn:Ha; [|done]. simpl.
    apply Hwf in Ha. by rewrite lookup_app_l.
Qed.

Lemma store_wf_new_object (k : string) (r : CacheRecord) (w : World) :
  store_wf w →
  store_wf (CacheMemento.saveState k (new_object r w).1 (new_object r w).2).
Proof.
  intros Hwf k' a. unfold store_wf.
  cbn [new_object fst snd CacheMemento.saveState cacheStates objects].
  rewrite length_app. simpl.
  intros [[<- <-]|[Hne Ha]]%lookup_insert_Some; [lia|].
  apply Hwf in Ha. lia.
Qed.

(** Loading the entries that [saveState] wrote inserts them one by one. *)
Lemma forEach_saveState_entries
    (es : list (string * CacheRecord)) (typed : bool) (w : World) :
  store_wf w →
  ∃ w', forEach_saveState (json_of_entry <$> es) typed w = Iterated typed w'
      ∧ store_wf w'
      ∧ session w' = session w
      ∧ circles w' = circles w
      ∧ localStorage w' = localStorage w
      ∧ store_view w' = foldl (λ m e, <[e.1 := e.2]> m) (store_view w) es
      ∧ objects w' = objects w ++ es.*2.
Proof.
  revert w. induction es as [|[k [pv cc]] es IH]; intros w Hwf.
  - exists w. repeat split; try done. by rewrite app_nil_r.
  - rewrite fmap_cons.
    change (json_of_entry (k, mkCacheRecord pv cc)) with
      (JArr [JStr k; JObj [("pointValue", json_of_Z pv);
                           ("coinCount", json_of_Z cc)]]).
    unfold forEach_saveState; fold forEach_saveState.
    change (assoc_last "pointValue" _) with (Some (json_of_Z pv)).
    change (assoc_last "coinCount" _) with (Some (json_of_Z cc)).
    rewrite !as_integer_json_of_Z.
    set (r := mkCacheRecord pv cc).
    destruct (IH (CacheMemento.saveState k (new_object r w).1 (new_object r w).2))
      as (w' & Hrun & Hwf' & Hses & Hcir & Hsto & Hview & Hobj);
      [by apply store_wf_new_object|].
    exists w'. repeat split; try done.
    + by rewrite Hview, store_view_new_object.
    + rewrite Hobj. cbn [new_object snd CacheMemento.saveState objects].
      by rewrite <-app_assoc.
Qed.

(** Inserting the entries of a map into the empty map rebuilds the map. *)
Lemma foldl_insert_map_to_list (m : gmap string CacheRecord) :
  foldl (λ m e, <[e.1 := e.2]> m) ∅ (map_to_list m) = m.
Proof.
  assert (Hrev : ∀ es : list (string * CacheRecord),
             foldl (λ m e, <[e.1 := e.2]> m) ∅ es
             =@{gmap string CacheRecord} list_to_map (reverse es)).
  { induction es as [|e es IH] using rev_ind; [done|].
    rewrite foldl_app, reverse_app, IH. by destruct e. }
  rewrite Hrev. rewrite <-(list_to_map_to_list m) at 2.
  apply list_to_map_proper.
  - rewrite fmap_reverse, reverse_Permutation. apply NoDup_fst_map_to_list.
  - apply reverse_Permutation.
Qed.

Lemma loadState_snapshot (w w0 : World) :
  localStorage w0 = Some (Parsed (snapshot w)) →
  ∃ w', loadState w0 = Returned w'
      ∧ session w' = session w
      ∧ store_view w' = store_view w
      ∧ store_wf w'
      ∧ circles w' = circles w0
      ∧ localStorage w' = localStorage w0
      ∧ objects w' = objects w0 ++ (map_to_list (store_view w)).*2.
Proof.
  intros Hslot. unfold loadState. rewrite Hslot.
  destruct (js_get_snapshot w) as (Hloc & Hpts & Hcoins & Hstore & Hhist).
  change (snapshot w) with (JObj (match snapshot w with JObj fs => fs | _ => [] end)) at 1.
  cbv beta iota zeta.
  change (JObj (match snapshot w with JObj fs => fs | _ => [] end))
    with (snapshot w).
  rewrite Hloc, Hpts, Hcoins, Hstore, Hhist.
  change (json_of_LatLng (playerLocation w)) with
    (JObj [("lat", JNum (lat (playerLocation w)));
           ("lng", JNum (lng (playerLocation w)))]) at 1.
  cbv iota.
  rewrite leaflet_latLng_json. unfold assign_counters.
  rewrite !as_integer_json_of_Z.
  change (truthy (Some (JArr _))) with true. cbv iota.
  set (w3 := CacheMemento.clearStates _).
  destruct (forEach_saveState_entries (map_to_list (store_view w)) true w3)
    as (w4 & -> & Hwf & Hses & Hcir & Hsto & Hview & Hobj).
  { intros k a. unfold w3. cbn [CacheMemento.clearStates cacheStates].
    by rewrite lookup_empty. }
  rewrite map_latLng_json. eexists. split; [done|].
  assert (store_view w3 = ∅) as Hempty.
  { unfold store_view, w3. cbn [CacheMemento.clearStates cacheStates].
    by rewrite omap_empty. }
  rewrite Hempty, foldl_insert_map_to_list in Hview.
  injection Hses as Hl Hp Hc _.
  repeat split; try done.
  - unfold session. simpl. by rewrite Hl, Hp, Hc.
  - simpl. by rewrite Hsto.
Qed.

(** [loadState] on a blob whose [playerLocation] is as [saveState] writes
    it: what is left to run once the location has been restored. *)
Lemma loadState_located (w : World) (v : json) (l : LatLng) :
  localStorage w = Some (Parsed v) →
  js_get v "playerLocation" = Some (json_of_LatLng l) →
  loadState w
  = let w1 := setLocation l w in
    let (typed, w2) :=
      assign_counters (js_get v "playerPoints") (js_get v "playerCoins") w1 in
    let w3 := CacheMemento.clearStates w2 in
    let after_store :=
      if truthy (js_get v "cacheStates") then
        match js_get v "cacheStates" with
        | Some (JArr l) => forEach_saveState l typed w3
        | _ => IterationThrown typed w3
        end
      else Iterated typed w3 in
    match after_store with
    | Iterated typed w4 =>
        match js_get v "movementHistory" with
        | Some (JArr l) =>
            match map_latLng l with
            | Mapped h => returned typed (set_movementHistory h w4)
            | MapThrown => thrown typed TypeError w4
            | MapUnchecked => Unchecked
            end
        | _ => thrown typed TypeError w4
        end
    | IterationThrown typed w4 => thrown typed TypeError w4
    end.
Proof.
  intros Hslot Hloc. unfold loadState. rewrite Hslot.
  destruct v as [| | | | |fs]; try done. cbv zeta. rewrite Hloc.
  change (json_of_LatLng l) with
    (JObj [("lat", JNum (lat l)); ("lng", JNum (lng l))]) at 1.
  cbv iota. by rewrite leaflet_latLng_json.
Qed.

(** A blob whose [cacheStates] is missing or false and that is otherwise as
    [saveState] writes it: the session is restored, the store left empty. *)
Lemma loadState_without_store
    (w : World) (v : json) (l : LatLng) (points coins : Z) (h : list LatLng) :
  localStorage w = Some (Parsed v) →
  js_get v "playerLocation" = Some (json_of_LatLng l) →
  js_get v "playerPoints" = Some (json_of_Z points) →
  js_get v "playerCoins" = Some (json_of_Z coins) →
  truthy (js_get v "cacheStates") = false →
  js_get v "movementHistory" = Some (JArr (json_of_LatLng <$> h)) →
  loadState w
  = Returned
      (set_movementHistory h
         (CacheMemento.clearStates (set_counters points coins (setLocation l w)))).
Proof.
  intros Hslot Hloc Hpts Hcoins Hstore Hhist.
  rewrite (loadState_located w v l Hslot Hloc). cbv zeta.
  rewrite Hpts, Hcoins, Hstore, Hhist. unfold assign_counters.
  rewrite !as_integer_json_of_Z.
  by rewrite map_latLng_json.
Qed.

Section Scan.

Variable luck : string → Q.
Variable coordinate_toString : Q → string.

Lemma memento_scan_spec (r : Z) (w : World) :
  scan luck coordinate_toString r w
  = set_circles
      (circles w ++ spawned luck coordinate_toString r (playerLocation w)) w.
Proof.
  unfold scan, for_lt.
  apply (for_count_collect circles (λ w c, set_circles c w)); try by intros [].
  intros i w'.
  apply (for_count_collect circles (λ w c, set_circles c w)); try by intros [].
  intros j w''. unfold spawned_at, spawnCache. cbv zeta.
  destruct (Qltb _ _); [done|]. destruct w''; simpl. by rewrite app_nil_r.
Qed.

Lemma memento_updateCaches_spec (w : World) :
  updateCaches luck coordinate_toString w
  = set_circles (spawned luck coordinate_toString NEIGHBORHOOD_SIZE (playerLocation w)) w.
Proof. unfold updateCaches. rewrite memento_scan_spec. by destruct w. Qed.

Lemma boot_spec (slot : option blob) :
  boot luck coordinate_toString slot
  = mkWorld initialLocation 0 0 [] ∅ []
      (spawned luck coordinate_toString NEIGHBORHOOD_SIZE initialLocation) slot.
Proof. unfold boot. by rewrite memento_updateCaches_spec. Qed.

Lemma localStorage_boot (slot : option blob) :
  localStorage (boot luck coordinate_toString slot) = slot.
Proof. by rewrite boot_spec. Qed.

(** *** The invariant of the running game *)

Lemma moveTo_keeps (l : LatLng) (w : World) :
  playerCoins (moveTo luck coordinate_toString l w) = playerCoins w
  ∧ objects (moveTo luck coordinate_toString l w) = objects w
  ∧ cacheStates (moveTo luck coordinate_toString l w) = cacheStates w.
Proof. unfold moveTo. by rewrite memento_updateCaches_spec. Qed.

Lemma reset_keeps (w : World) :
  playerCoins (reset luck coordinate_toString w) = 0
  ∧ objects (reset luck coordinate_toString w) = objects w.
Proof. unfold reset. by rewrite memento_updateCaches_spec. Qed.

(** Opening a popup and clicking its buttons leave the session but for the
    wallet, and the slot, as they are. *)
Lemma memento_bindPopup_keeps (lat lng random : Q) (w : World) :
  session (bindPopup luck coordinate_toString lat lng random w).2 = session w
  ∧ localStorage (bindPopup luck coordinate_toString lat lng random w).2
    = localStorage w.
Proof.
  unfold bindPopup.
  destruct (CacheMemento.getState _ w); split; reflexivity.
Qed.

Lemma memento_clicks_keep (p : Popup) (w : World) :
  (playerPoints (collect p w) = playerPoints w
   ∧ localStorage (collect p w) = localStorage w)
  ∧ (playerPoints (deposit p w) = playerPoints w
     ∧ localStorage (deposit p w) = localStorage w).
Proof.
  unfold collect, deposit.
  by destruct (0 <? popup_coinCount p), (0 <? playerCoins w).
Qed.

(** What the store shows is among the objects. *)
Lemma store_view_objects (w : World) (k : string) (r : CacheRecord) :
  store_view w !! k = Some r → r ∈ objects w.
Proof.
  unfold store_view. rewrite lookup_omap.
  destruct (cacheStates w !! k) as [state|]; [|done]. simpl.
  apply list_elem_of_lookup_2.
Qed.

Lemma saved_ok_saveState (w : World) :
  0 ≤ playerCoins w → Forall (λ r, 0 ≤ coinCount r) (objects w) →
  saved_ok (saveState w).
Proof.
  intros Hw Ho b. unfold saveState. cbn [set_localStorage localStorage].
  intros [= <-]. exists w. split; [done|]. split; [done|].
  intros k r Hr%store_view_objects.
  by apply (proj1 (Forall_forall _ _) Ho).
Qed.

Lemma memento_session_inv_start : session_inv (start luck coordinate_toString).
Proof.
  unfold start. rewrite boot_spec.
  split; simpl; [done|constructor..| |constructor|by intros b].
  intros k a. simpl. by rewrite lookup_empty.
Qed.

Lemma session_inv_moveTo (l : LatLng) (s : Session) :
  session_inv s →
  session_inv (mkSession (moveTo luck coordinate_toString l (world s)) (popups s)).
Proof.
  intros [Hw Ho Hp Hs Hr Hsv].
  destruct (moveTo_keeps l (world s)) as (Hc & Hob & Hst).
  split; cbn [world popups]; unfold store_wf; rewrite ?Hc, ?Hob, ?Hst; try done.
  unfold moveTo. rewrite memento_updateCaches_spec. by apply saved_ok_saveState.
Qed.

(** The state of a script started on a slot that [saveState] wrote. *)
Lemma session_inv_reload (s : Session) (w' : World) :
  session_inv s →
  loadState (boot luck coordinate_toString (localStorage (world s))) = Returned w' →
  session_inv (mkSession w' []).
Proof.
  intros [Hw Ho Hp Hs Hr Hsv] Hrun.
  destruct (localStorage (world s)) as [b|] eqn:Hslot.
  - destruct (Hsv b Hslot) as (w0 & -> & Hw0 & Hview).
    destruct (loadState_snapshot w0
                (boot luck coordinate_toString (Some (Parsed (snapshot w0)))))
      as (w'' & Hrun' & Hses & Hv & Hwf & _ & Hsto & Hobj);
      [by rewrite boot_spec|].
    assert (w'' = w') as -> by congruence.
    injection Hses as _ _ Hcoins _.
    split; cbn [world popups]; try done.
    + by rewrite Hcoins.
    + rewrite Hobj, boot_spec. cbn [objects app].
      apply Forall_forall. intros r [[k r'] [-> Hin]]%list_elem_of_fmap.
      apply (Hview k). by apply elem_of_map_to_list.
    + intros b. rewrite Hsto, boot_spec. cbn [localStorage].
      intros [= <-]. by exists w0.
  - rewrite boot_spec in Hrun. unfold loadState in Hrun.
    cbn [localStorage] in Hrun. injection Hrun as <-.
    rewrite <-boot_spec. apply memento_session_inv_start.
Qed.

Lemma memento_session_inv_step (s s' : Session) :
  session_inv s → step luck coordinate_toString s s' → session_inv s'.
Proof.
  intros Hinv Hstep.
  destruct Hstep as [s|s|s|s|l s|s|l random s Hl H0 H1|p s Hin|p s Hin|s w' Hrun].
  - by apply session_inv_moveTo.
  - by apply session_inv_moveTo.
  - by apply session_inv_moveTo.
  - by apply session_inv_moveTo.
  - by apply session_inv_moveTo.
  - destruct Hinv as [Hw Ho Hp Hs Hr Hsv].
    unfold reset. rewrite memento_updateCaches_spec.
    split; cbn [world popups]; try done.
    by apply saved_ok_saveState.
  - destruct Hinv as [Hw Ho Hp Hs Hr Hsv].
    destruct (memento_bindPopup_keeps (lat l) (lng l) random (world s))
      as [_ Hslot].
    assert (saved_ok (bindPopup luck coordinate_toString (lat l) (lng l) random
                        (world s)).2) as Hsv'.
    { intros b. rewrite Hslot. apply Hsv. }
    assert (Hgen : 0 ≤ coinCount
              (generated luck coordinate_toString (lat l) (lng l) random)).
    { simpl. pose proof (generateCoins_range random H0 H1). lia. }
    destruct (CacheMemento.getState (key coordinate_toString (lat l) (lng l))
                (world s)) as [state|] eqn:Hstate.
    + destruct (lookup_lt_is_Some_2 (objects (world s)) state) as [r Hrec];
        [by apply (Hs _ _ Hstate)|].
      rewrite (memento_bindPopup_known luck coordinate_toString _ _ _ _ state r)
        in Hsv' |- * by done.
      split; simpl; try done.
      * constructor; [|done]. simpl.
        by eapply (Forall_lookup_1 _ _ _ _ Ho).
      * constructor; [|done]. simpl. by apply (Hs _ _ Hstate).
    + rewrite (memento_bindPopup_fresh luck coordinate_toString _ _ _ _ Hstate)
        in Hsv' |- *.
      split; simpl; [done| | | | |done].
      * apply Forall_app. split; [done|]. by constructor.
      * by constructor.
      * by apply (store_wf_new_object _ _ (world s)).
      * rewrite length_app. simpl. constructor; [simpl; lia|].
        eapply Forall_impl; [exact Hr|]. simpl. intros; lia.
  - destruct Hinv as [Hw Ho Hp Hs Hr Hsv].
    pose proof (proj1 (Forall_forall _ _) Hp p Hin) as Hpc. simpl in Hpc.
    pose proof (proj1 (Forall_forall _ _) Hr p Hin) as Hpr. simpl in Hpr.
    destruct (Z.lt_ge_cases 0 (popup_coinCount p)) as [Hpos|Hzero].
    + rewrite memento_collect_taken by done.
      split; simpl; rewrite ?length_alter; [lia| |done| |done|done].
      * apply Forall_alter; [done|]. by intros r _.
      * intros k a. cbn [cacheStates objects]. rewrite length_alter.
        intros [[<- <-]|[Hne Hk]]%lookup_insert_Some; [done|by apply (Hs k)].
    + rewrite memento_collect_refused by done. by split.
  - destruct Hinv as [Hw Ho Hp Hs Hr Hsv].
    pose proof (proj1 (Forall_forall _ _) Hr p Hin) as Hpr. simpl in Hpr.
    destruct (Z.lt_ge_cases 0 (playerCoins (world s))) as [Hpos|Hzero].
    + rewrite memento_deposit_given by done.
      split; simpl; rewrite ?length_alter; [done| |done| |done|done].
      * apply Forall_alter; [done|]. intros r _. simpl. intros Hrc. lia.
      * intros k a. cbn [cacheStates objects]. rewrite length_alter.
        intros [[<- <-]|[Hne Hk]]%lookup_insert_Some; [done|by apply (Hs k)].
    + rewrite memento_deposit_refused by done. by split.
  - by apply (session_inv_reload s).
Qed.

Lemma memento_session_inv_reachable (s : Session) :
  reachable luck coordinate_toString s → session_inv s.
Proof.
  unfold reachable. revert s.
  apply (rtc_ind_r session_inv (start luck coordinate_toString));
    [apply memento_session_inv_start|].
  intros s s' _ Hstep Hinv. by apply (memento_session_inv_step s s').
Qed.

End Scan.

End MementoFacts.

(** * Properties of the world scan *)

(** C9 as it stands fails on the scan of [src/example.ts]: whichever cell
    is taken for the player's, the 16 by 16 cells that the scan visits are
    not the 17 by 17 cells of the inclusive window of radius 8 around it. *)
Lemma example_scan_is_not_an_inclusive_window :
  ¬ ∃ pc : Cell, ∀ c : Cell,
      c ∈ Example.rects Sample.always_lucky ↔
        Main.in_window Example.NEIGHBORHOOD_SIZE pc c
        ∧ (Example.luckValue Sample.always_lucky (cell_i c) (cell_j c)
           < Example.CACHE_SPAWN_PROBABILITY)%Q.
Proof.
  intros [[pi pj] Hwin].
  assert (Hin : ∀ c, c ∈ Example.rects Sample.always_lucky ↔
                     -8 ≤ cell_i c < 8 ∧ -8 ≤ cell_j c < 8).
  { intros c. rewrite ExampleFacts.elem_of_rects.
    unfold Example.NEIGHBORHOOD_SIZE. split; [tauto|].
    intros [? ?]. split; [done|split; [done|reflexivity]]. }
  assert (Hlucky : ∀ c, Main.in_window 8 (mkCell pi pj) c →
                        -8 ≤ cell_i c < 8 ∧ -8 ≤ cell_j c < 8).
  { intros c Hc. apply Hin, Hwin. split; [done|reflexivity]. }
  pose proof (proj1 (Hwin (mkCell (-8) (-8)))
                (proj2 (Hin (mkCell (-8) (-8))) ltac:(simpl; lia))) as [Hlo _].
  unfold Main.in_window, Example.NEIGHBORHOOD_SIZE in *. simpl in *.
  destruct (Hlucky (mkCell (pi + 8) pj) ltac:(simpl; lia)) as [Hhi _].
  destruct (Hlucky (mkCell (pi - 8) pj) ltac:(simpl; lia)) as [Hlo' _].
  simpl in *. lia.
Qed.

(** C9, amended. The scan of [updateCaches] in [src/main.ts] puts on the map
    exactly the cells of the inclusive square window of radius
    [NEIGHBORHOOD_SIZE] around the player's cell that pass the existence
    test, each once. The scans of [src/example.ts] and of the build with
    [CacheMemento] visit the offsets [-r <= d < r] only, the first around
    cell (0,0), the second around the player's location. *)
Theorem scan_windows (luck : string → Q) (coordinate_toString : Q → string) :
  (∀ (w : Main.World) (c : Cell),
     c ∈ Main.rects (Main.updateCaches luck w) ↔
       Main.in_window Main.NEIGHBORHOOD_SIZE (Main.playerCell w) c
       ∧ (Main.luckValue luck (cell_i c) (cell_j c)
          < Main.CACHE_SPAWN_PROBABILITY)%Q)
  ∧ (∀ w : Main.World, NoDup (Main.rects (Main.updateCaches luck w)))
  ∧ (∀ (r : Z) (pc c : Cell) (w : Main.World),
       c ∈ Main.rects (Main.scan luck r pc (Main.set_rects w [])) ↔
         Main.in_window r pc c
         ∧ (Main.luckValue luck (cell_i c) (cell_j c)
            < Main.CACHE_SPAWN_PROBABILITY)%Q)
  ∧ (∀ c : Cell,
       c ∈ Example.rects luck ↔
         (- Example.NEIGHBORHOOD_SIZE ≤ cell_i c < Example.NEIGHBORHOOD_SIZE
          ∧ - Example.NEIGHBORHOOD_SIZE ≤ cell_j c < Example.NEIGHBORHOOD_SIZE)
         ∧ (Example.luckValue luck (cell_i c) (cell_j c)
            < Example.CACHE_SPAWN_PROBABILITY)%Q)
  ∧ (∀ (w : Memento.World) (p : LatLng),
       p ∈ Memento.circles (Memento.updateCaches luck coordinate_toString w) ↔
         ∃ i j : Z,
           (- Memento.NEIGHBORHOOD_SIZE ≤ i < Memento.NEIGHBORHOOD_SIZE
            ∧ - Memento.NEIGHBORHOOD_SIZE ≤ j < Memento.NEIGHBORHOOD_SIZE)
           ∧ p ∈ Memento.spawned_at luck coordinate_toString
                   (Memento.playerLocation w) i j).
Proof.
  split; [|split; [|split; [|split]]].
  - intros w c. rewrite MainFacts.updateCaches_spec. simpl.
    rewrite MainFacts.elem_of_spawned. unfold Main.in_window, Main.playerCell.
    tauto.
  - intros w. rewrite MainFacts.updateCaches_spec. simpl.
    apply MainFacts.NoDup_spawned.
  - intros r pc c w. rewrite MainFacts.scan_spec. simpl.
    rewrite MainFacts.elem_of_spawned. unfold Main.in_window. tauto.
  - intros c. rewrite ExampleFacts.elem_of_rects. tauto.
  - intros w p. rewrite MementoFacts.memento_updateCaches_spec. simpl.
    unfold Memento.spawned, Memento.NEIGHBORHOOD_SIZE. split.
    + intros (i & Hp & Hi%elem_of_seqZ)%list_elem_of_bind.
      apply list_elem_of_bind in Hp as (j & Hp & Hj%elem_of_seqZ).
      exists i, j. repeat split; try lia; done.
    + intros (i & j & [Hi Hj] & Hp).
      apply list_elem_of_bind. exists i. split; [|apply elem_of_seqZ; lia].
      apply list_elem_of_bind. exists j. split; [done|apply elem_of_seqZ; lia].
Qed.

Lemma playerLocation_updateCaches (luck : string → Q) (w : Main.World) :
  Main.playerLocation (Main.updateCaches luck w) = Main.playerLocation w.
Proof. by rewrite MainFacts.updateCaches_spec. Qed.

Lemma elem_of_rects_updateCaches (luck : string → Q) (w : Main.World) (c : Cell) :
  c ∈ Main.rects (Main.updateCaches luck w) ↔
    Main.in_window Main.NEIGHBORHOOD_SIZE (Main.playerCell w) c
    ∧ (Main.luckValue luck (cell_i c) (cell_j c) < Main.CACHE_SPAWN_PROBABILITY)%Q.
Proof.
  rewrite MainFacts.updateCaches_spec. simpl.
  rewrite MainFacts.elem_of_spawned. unfold Main.in_window, Main.playerCell.
  tauto.
Qed.

Lemma elem_of_rects_move (luck : string → Q) (d : Main.direction) (w : Main.World) (c : Cell) :
  c ∈ Main.rects (Main.move luck d w) ↔
    Main.in_window Main.NEIGHBORHOOD_SIZE (Main.playerCell (Main.move luck d w)) c
    ∧ (Main.luckValue luck (cell_i c) (cell_j c) < Main.CACHE_SPAWN_PROBABILITY)%Q.
Proof.
  destruct d; unfold Main.move, Main.movePlayer;
    rewrite elem_of_rects_updateCaches; unfold Main.playerCell;
    by rewrite playerLocation_updateCaches.
Qed.

(** The circles that a scan of the build with [CacheMemento] leaves on the
    map: the points at the offsets of the half-open window around the
    player's location whose key the oracle answers below
    [CACHE_SPAWN_PROBABILITY]. *)
Lemma elem_of_circles_updateCaches
    (luck : string → Q) (coordinate_toString : Q → string)
    (w : Memento.World) (p : LatLng) :
  p ∈ Memento.circles (Memento.updateCaches luck coordinate_toString w) ↔
    ∃ i j : Z,
      (- Memento.NEIGHBORHOOD_SIZE ≤ i < Memento.NEIGHBORHOOD_SIZE
       ∧ - Memento.NEIGHBORHOOD_SIZE ≤ j < Memento.NEIGHBORHOOD_SIZE)
      ∧ p = latLng
              (lat (Memento.playerLocation w) + inject_Z i * Memento.TILE_DEGREES)
              (lng (Memento.playerLocation w) + inject_Z j * Memento.TILE_DEGREES)
      ∧ (luck (Array_toString [coordinate_toString (lat p);
                               coordinate_toString (lng p)])
         < Memento.CACHE_SPAWN_PROBABILITY)%Q.
Proof.
  rewrite MementoFacts.memento_updateCaches_spec. simpl.
  unfold Memento.spawned, Memento.NEIGHBORHOOD_SIZE, Memento.spawned_at.
  split.
  - intros (i & Hp & Hi%elem_of_seqZ)%list_elem_of_bind.
    apply list_elem_of_bind in Hp as (j & Hp & Hj%elem_of_seqZ).
    cbv zeta in Hp.
    destruct (Qltb _ _) eqn:Hlucky; [|by apply elem_of_nil in Hp].
    apply list_elem_of_singleton in Hp as ->.
    exists i, j. split; [lia|]. split; [done|].
    by apply MainFacts.Qltb_lt.
  - intros (i & j & [Hi Hj] & -> & Hlucky%MainFacts.Qltb_lt).
    apply list_elem_of_bind. exists i. split; [|apply elem_of_seqZ; lia].
    apply list_elem_of_bind. exists j. split; [|apply elem_of_seqZ; lia].
    cbv zeta. simpl in Hlucky. rewrite Hlucky. by apply list_elem_of_singleton.
Qed.

(** C2 as it stands fails on the build with [CacheMemento], whose key is
    the notation of a point computed from the player's position. The player
    stands at the classroom; the scan gives the offset -7 the latitude
    36.988793795784005. After a click on the north button the same place is
    at the offset -8, and the scan gives it the latitude 36.98879379578401:
    another number, though of the same cell and, in exact arithmetic, the
    same sum. So whenever the notation tells the two numbers apart, as
    JavaScript's does, the place has another key than before the move, and
    an oracle may find it lucky under the one and not under the other. *)
Lemma memento_key_follows_the_player :
  let playerLat := Binary64.OAKES_CLASSROOM_lat in
  let before := Binary64.offset playerLat (-7) in
  let after := Binary64.offset (Binary64.north playerLat) (-8) in
  before = SpecFloat.S754_finite false 5205709936111780 (-47)
  ∧ after = SpecFloat.S754_finite false 5205709936111781 (-47)
  ∧ Binary64.cellIndex before = Some 369887
  ∧ Binary64.cellIndex after = Some 369887
  ∧ (lat Memento.OAKES_CLASSROOM + inject_Z (-7) * Memento.TILE_DEGREES
     == lat Memento.OAKES_CLASSROOM + Memento.TILE_DEGREES
        + inject_Z (-8) * Memento.TILE_DEGREES)%Q
  ∧ (∀ (toString : Binary64.number → string) (lng : Binary64.number),
       toString before ≠ toString after →
       Binary64.key toString before lng ≠ Binary64.key toString after lng
       ∧ ∃ luck : string → Q,
           (luck (Binary64.key toString before lng)
            < Memento.CACHE_SPAWN_PROBABILITY)%Q
           ∧ ¬ (luck (Binary64.key toString after lng)
                < Memento.CACHE_SPAWN_PROBABILITY)%Q).
Proof.
  intros playerLat before after.
  split; [by vm_compute|]. split; [by vm_compute|].
  split; [by vm_compute|]. split; [by vm_compute|].
  split; [by vm_compute|].
  intros toString lng Hne.
  assert (Binary64.key toString before lng ≠ Binary64.key toString after lng)
    as Hkey.
  { unfold Binary64.key, Array_toString. simpl. intros Heq.
    by apply Hne, (string_app_inv_tail _ _ ("," +:+ toString lng)). }
  split; [done|].
  exists (λ k, if decide (k = Binary64.key toString before lng) then 0%Q else 1%Q).
  rewrite decide_True by done. rewrite decide_False by done.
  split; [done|]. by intros ?.
Qed.

(** C2, amended. In [src/main.ts] a cell is given a cache exactly when the
    oracle, asked with the key [[i, j].toString()], answers below
    [CACHE_SPAWN_PROBABILITY]. The key is built from the two indices alone,
    at the one place where the test is made, so a cell that two scans both
    visit gets the same answer from both, whatever the player's position,
    wallet and store at the time of each scan; in particular before and
    after a move. In the build with [CacheMemento] the key is
    [[lat, lng].toString()] of the point [lat = playerLat + i *
    TILE_DEGREES], [lng = playerLng + j * TILE_DEGREES], built from the
    player's position and the offsets: two scans from the same position
    put the same circles on the map. *)
Theorem existence_depends_on_the_cell_only
    (luck : string → Q) (coordinate_toString : Q → string) :
  (∀ (w1 w2 : Main.World) (c : Cell),
     Main.in_window Main.NEIGHBORHOOD_SIZE (Main.playerCell w1) c →
     Main.in_window Main.NEIGHBORHOOD_SIZE (Main.playerCell w2) c →
     Main.luckValue luck (cell_i c) (cell_j c)
       = luck (Array_toString [Number_toString (cell_i c); Number_toString (cell_j c)])
     ∧ (c ∈ Main.rects (Main.updateCaches luck w1) ↔
          (Main.luckValue luck (cell_i c) (cell_j c) < Main.CACHE_SPAWN_PROBABILITY)%Q)
     ∧ (c ∈ Main.rects (Main.updateCaches luck w1) ↔
          c ∈ Main.rects (Main.updateCaches luck w2))
     ∧ (∀ d : Main.direction,
          Main.in_window Main.NEIGHBORHOOD_SIZE
            (Main.playerCell (Main.move luck d w1)) c →
          (c ∈ Main.rects (Main.updateCaches luck w1) ↔
             c ∈ Main.rects (Main.move luck d w1))))
  ∧ (∀ (w : Memento.World) (p : LatLng),
       p ∈ Memento.circles (Memento.updateCaches luck coordinate_toString w) ↔
         ∃ i j : Z,
           (- Memento.NEIGHBORHOOD_SIZE ≤ i < Memento.NEIGHBORHOOD_SIZE
            ∧ - Memento.NEIGHBORHOOD_SIZE ≤ j < Memento.NEIGHBORHOOD_SIZE)
           ∧ p = latLng
                   (lat (Memento.playerLocation w)
                    + inject_Z i * Memento.TILE_DEGREES)
                   (lng (Memento.playerLocation w)
                    + inject_Z j * Memento.TILE_DEGREES)
           ∧ (luck (Array_toString [coordinate_toString (lat p);
                                    coordinate_toString (lng p)])
              < Memento.CACHE_SPAWN_PROBABILITY)%Q)
  ∧ (∀ w1 w2 : Memento.World,
       Memento.playerLocation w1 = Memento.playerLocation w2 →
       Memento.circles (Memento.updateCaches luck coordinate_toString w1)
       = Memento.circles (Memento.updateCaches luck coordinate_toString w2)).
Proof.
  split; [|split].
  - intros w1 w2 c H1 H2. split; [done|]. split; [|split].
    + rewrite elem_of_rects_updateCaches. tauto.
    + rewrite !elem_of_rects_updateCaches. tauto.
    + intros d Hd. rewrite elem_of_rects_updateCaches, elem_of_rects_move. tauto.
  - apply elem_of_circles_updateCaches.
  - intros w1 w2 Hloc. rewrite !MementoFacts.memento_updateCaches_spec.
    simpl. by rewrite Hloc.
Qed.

(** The cell (369890, -1220630) lies in the window of the player at the
    classroom and still does after a step to the north. *)
Lemma existence_depends_on_the_cell_only_witness :
  let w1 := Main.mkWorld Main.OAKES_CLASSROOM 0 0 ∅ [] in
  let w2 := Main.move Sample.luck Main.north w1 in
  let c := mkCell 369890 (-1220630) in
  Main.luckValue Sample.luck (cell_i c) (cell_j c)
    = Sample.luck (Array_toString [Number_toString (cell_i c); Number_toString (cell_j c)])
  ∧ (c ∈ Main.rects (Main.updateCaches Sample.luck w1) ↔
       (Main.luckValue Sample.luck (cell_i c) (cell_j c) < Main.CACHE_SPAWN_PROBABILITY)%Q)
  ∧ (c ∈ Main.rects (Main.updateCaches Sample.luck w1) ↔
       c ∈ Main.rects (Main.updateCaches Sample.luck w2))
  ∧ (∀ d : Main.direction,
       Main.in_window Main.NEIGHBORHOOD_SIZE
         (Main.playerCell (Main.move Sample.luck d w1)) c →
       (c ∈ Main.rects (Main.updateCaches Sample.luck w1) ↔
          c ∈ Main.rects (Main.move Sample.luck d w1))).
Proof.
  intros w1 w2 c.
  apply (proj1 (existence_depends_on_the_cell_only
                  Sample.luck Sample.coordinate_toString) w1 w2 c).
  - unfold Main.in_window. vm_compute. intuition discriminate.
  - unfold Main.in_window. vm_compute. intuition discriminate.
Defined.

(** * Properties of the cache records *)

(** C1 as it stands fails on the build with [CacheMemento]: for a point the
    store does not know, the coin count of the record is whatever
    [Math.random()] makes it, so two evaluations need not agree. *)
Lemma memento_coin_count_is_not_rederivable :
  ¬ ∀ (lat lng random1 random2 : Q) (w1 w2 : Memento.World),
      Memento.CacheMemento.getState
        (Memento.key Sample.coordinate_toString lat lng) w1 = None →
      Memento.CacheMemento.getState
        (Memento.key Sample.coordinate_toString lat lng) w2 = None →
      let p1 := (Memento.bindPopup Sample.luck Sample.coordinate_toString
                   lat lng random1 w1).1 in
      let p2 := (Memento.bindPopup Sample.luck Sample.coordinate_toString
                   lat lng random2 w2).1 in
      Memento.popup_pointValue p1 = Memento.popup_pointValue p2
      ∧ Memento.popup_coinCount p1 = Memento.popup_coinCount p2.
Proof.
  intros Hall.
  pose (w := Memento.mkWorld (latLng 37 (-122)) 0 0 [] ∅ [] [] None).
  destruct (Hall 37%Q (-122)%Q 0%Q (1 # 2) w w eq_refl eq_refl) as [_ Hcoins].
  vm_compute in Hcoins. discriminate.
Qed.

(** C1, amended. In [src/main.ts], for a cell the store does not know, the
    popup callback yields the record [initialRecord i j], which the oracle
    and the two indices determine: the same from any two states, from the
    state the script starts in, and again when the popup is reopened with
    no click in between. In the build with [CacheMemento] this holds of
    the point value only: the coin count is [generateCoins] of a fresh
    [Math.random()], a number from 1 to 10. *)
Theorem initial_record_determinism
    (luck : string → Q) (coordinate_toString : Q → string) :
  (∀ (i j : Z) (w1 w2 : Main.World),
     Main.cacheState w1 !! Main.cacheKey i j = None →
     Main.cacheState w2 !! Main.cacheKey i j = None →
     let p1 := (Main.bindPopup luck i j w1).1 in
     let p2 := (Main.bindPopup luck i j w2).1 in
     let w1' := (Main.bindPopup luck i j w1).2 in
     Main.popup_pointValue p1 = pointValue (Main.initialRecord luck i j)
     ∧ Main.popup_coinCount p1 = coinCount (Main.initialRecord luck i j)
     ∧ p2 = p1
     ∧ (Main.bindPopup luck i j w1').1 = p1
     ∧ Main.cacheState w1' !! Main.cacheKey i j
       = Some (Main.initialRecord luck i j))
  ∧ (∀ i j : Z,
       Main.cacheState (Main.initialWorld luck) !! Main.cacheKey i j = None)
  ∧ (∀ (lat lng random1 random2 : Q) (w1 w2 : Memento.World),
       Memento.CacheMemento.getState (Memento.key coordinate_toString lat lng) w1
         = None →
       Memento.CacheMemento.getState (Memento.key coordinate_toString lat lng) w2
         = None →
       let p1 := (Memento.bindPopup luck coordinate_toString lat lng random1 w1).1 in
       let p2 := (Memento.bindPopup luck coordinate_toString lat lng random2 w2).1 in
       Memento.popup_pointValue p1 = Memento.popup_pointValue p2
       ∧ Memento.popup_coinCount p1 = Memento.generateCoins random1
       ∧ Memento.popup_coinCount p2 = Memento.generateCoins random2
       ∧ ((0 <= random1)%Q → (random1 < 1)%Q →
          1 ≤ Memento.popup_coinCount p1 ≤ 10)).
Proof.
  split; [|split].
  - intros i j w1 w2 H1 H2.
    rewrite (MainFacts.bindPopup_fresh luck i j w1 H1).
    rewrite (MainFacts.bindPopup_fresh luck i j w2 H2).
    cbn [fst snd Main.popup_pointValue Main.popup_coinCount].
    repeat split.
    + erewrite MainFacts.bindPopup_known; [done|]. simpl. apply lookup_insert_eq.
    + simpl. apply lookup_insert_eq.
  - intros i j. unfold Main.initialWorld.
    rewrite MainFacts.cacheState_updateCaches. apply lookup_empty.
  - intros lat lng random1 random2 w1 w2 H1 H2.
    rewrite (MementoFacts.memento_bindPopup_fresh luck coordinate_toString _ _ _ w1 H1).
    rewrite (MementoFacts.memento_bindPopup_fresh luck coordinate_toString _ _ _ w2 H2).
    cbn [fst snd Memento.popup_pointValue Memento.popup_coinCount
         Memento.generated pointValue coinCount].
    repeat split; apply MementoFacts.generateCoins_range; done.
Qed.

(** The cache of cell (369890, -1220630), opened at the start and after a
    step to the north; a point of the other build opened with two draws. *)
Lemma initial_record_determinism_witness :
  let w1 := Main.initialWorld Sample.luck in
  let w2 := Main.move Sample.luck Main.north w1 in
  let p1 := (Main.bindPopup Sample.luck 369890 (-1220630) w1).1 in
  let p2 := (Main.bindPopup Sample.luck 369890 (-1220630) w2).1 in
  let m := Memento.mkWorld (latLng 37 (-122)) 0 0 [] ∅ [] [] None in
  let q1 := (Memento.bindPopup Sample.luck Sample.coordinate_toString
               37 (-122) 0 m).1 in
  let q2 := (Memento.bindPopup Sample.luck Sample.coordinate_toString
               37 (-122) (1 # 2) m).1 in
  (Main.popup_pointValue p1 = 73 ∧ Main.popup_coinCount p1 = 7 ∧ p2 = p1)
  ∧ (Memento.popup_pointValue q1 = Memento.popup_pointValue q2
     ∧ Memento.popup_coinCount q1 = 1 ∧ Memento.popup_coinCount q2 = 6).
Proof.
  intros w1 w2 p1 p2 m q1 q2.
  pose proof (initial_record_determinism Sample.luck Sample.coordinate_toString)
    as (Hmain & _ & Hmemento).
  split.
  - assert (Main.cacheState w1 !! Main.cacheKey 369890 (-1220630) = None) as H1
      by (by vm_compute).
    assert (Main.cacheState w2 !! Main.cacheKey 369890 (-1220630) = None) as H2
      by (by vm_compute).
    destruct (Hmain 369890 (-1220630) w1 w2 H1 H2) as (Hpv & Hcc & Heq & _).
    split; [etrans; [exact Hpv|by vm_compute]|].
    split; [etrans; [exact Hcc|by vm_compute]|done].
  - destruct (Hmemento 37%Q (-122)%Q 0%Q (1 # 2) m m eq_refl eq_refl)
      as (Hpv & Hc1 & Hc2 & _).
    split; [done|].
    split; [etrans; [exact Hc1|by vm_compute]|etrans; [exact Hc2|by vm_compute]].
Defined.

(** * Properties of the coin economy *)

(** C3, evaluated on the build with [CacheMemento]. A cache is opened for
    the first time with [Math.random()] = 0.45 and gets 5 coins. The first
    click on the collect button moves the 5 coins to the wallet. The second
    click on the same popup finds the cache empty, [coinCount] = 0, and
    still adds 5 coins to the wallet: the handler tests the constant
    [coinCount] that the popup closed over, not [state.coinCount]. *)
Theorem memento_second_collect_pays_again :
  let w0 := Memento.mkWorld (latLng 37 (-122)) 0 0 [] ∅ [] [] None in
  let p := (Memento.bindPopup Sample.luck Sample.coordinate_toString
              37 (-122) (45 # 100) w0).1 in
  let w1 := (Memento.bindPopup Sample.luck Sample.coordinate_toString
               37 (-122) (45 # 100) w0).2 in
  let w2 := Memento.collect p w1 in
  let w3 := Memento.collect p w2 in
  (Memento.store_view w1 !! Memento.popup_key p = Some (mkCacheRecord 73 5)
   ∧ Memento.playerCoins w1 = 0)
  ∧ (Memento.store_view w2 !! Memento.popup_key p = Some (mkCacheRecord 73 0)
     ∧ Memento.playerCoins w2 = 5)
  ∧ (Memento.store_view w3 !! Memento.popup_key p = Some (mkCacheRecord 73 0)
     ∧ Memento.playerCoins w3 = 10).
Proof. vm_compute. repeat split. Qed.

(** C4. A deposit moves coins from the wallet to the cache, one for one,
    and is refused on an empty wallet. In [src/main.ts] a click deposits one
    coin, so [n] coins take [n] clicks, possible while [n <= playerCoins];
    in the build with [CacheMemento] a click deposits the whole wallet,
    [n = playerCoins]. *)
Theorem deposit_conservation :
  (∀ (n : nat) (p : Main.Popup) (w : Main.World) (r : CacheRecord),
     Main.cacheState w !! Main.popup_cacheKey p = Some r →
     Z.of_nat n ≤ Main.playerCoins w →
     ∃ w', Main.clicks (Main.deposit p) n w = Some w'
         ∧ Main.cacheState w' !! Main.popup_cacheKey p
           = Some (mkCacheRecord (pointValue r) (coinCount r + Z.of_nat n))
         ∧ Main.playerCoins w' = Main.playerCoins w - Z.of_nat n
         ∧ (∀ k, k ≠ Main.popup_cacheKey p →
              Main.cacheState w' !! k = Main.cacheState w !! k))
  ∧ (∀ (p : Main.Popup) (w : Main.World),
       Main.playerCoins w = 0 → Main.deposit p w = Some w)
  ∧ (∀ (p : Memento.Popup) (w : Memento.World) (r : CacheRecord),
       Memento.objects w !! Memento.popup_state p = Some r →
       0 < Memento.playerCoins w →
       Memento.store_view (Memento.deposit p w) !! Memento.popup_key p
         = Some (mkCacheRecord (pointValue r)
                   (coinCount r + Memento.playerCoins w))
       ∧ Memento.playerCoins (Memento.deposit p w)
         = Memento.playerCoins w - Memento.playerCoins w)
  ∧ (∀ (p : Memento.Popup) (w : Memento.World),
       Memento.playerCoins w = 0 → Memento.deposit p w = w).
Proof.
  split; [|split; [|split]].
  - intros n p w r Hr Hn. eexists. split; [by apply MainFacts.clicks_deposit|].
    simpl. split; [apply lookup_insert_eq|]. split; [done|].
    intros k Hk. by rewrite lookup_insert_ne.
  - intros p w Hw. apply MainFacts.deposit_refused. lia.
  - intros p w r Hr Hpos. split; [by apply MementoFacts.store_view_deposit|].
    rewrite MementoFacts.memento_deposit_given by done. simpl. lia.
  - intros p w Hw. apply MementoFacts.memento_deposit_refused. lia.
Qed.

(** Two coins deposited out of a wallet of three, in [src/main.ts]; a
    wallet of three emptied into a cache of the other build. *)
Lemma deposit_conservation_witness :
  let p := Main.mkPopup 1 2 "1,2" 40 5 in
  let w := Main.mkWorld Main.OAKES_CLASSROOM 0 3
             {["1,2" := mkCacheRecord 40 5]} [] in
  let q := Memento.mkPopup 37 (-122) "37:-122" 0 40 5 in
  let m := Memento.mkWorld (latLng 37 (-122)) 0 3 [mkCacheRecord 40 5]
             {["37:-122" := 0%nat]} [] [] None in
  (∃ w', Main.clicks (Main.deposit p) 2 w = Some w'
       ∧ Main.cacheState w' !! "1,2" = Some (mkCacheRecord 40 7)
       ∧ Main.playerCoins w' = 1)
  ∧ (Memento.store_view (Memento.deposit q m) !! "37:-122"
       = Some (mkCacheRecord 40 8)
     ∧ Memento.playerCoins (Memento.deposit q m) = 0).
Proof.
  intros p w q m.
  destruct deposit_conservation as (Hmain & _ & Hmemento & _).
  split.
  - destruct (Hmain 2%nat p w (mkCacheRecord 40 5)) as (w' & Hrun & Hc & Hw & _).
    + by vm_compute.
    + simpl. lia.
    + exists w'. split; [done|]. split; [exact Hc|exact Hw].
  - destruct (Hmemento q m (mkCacheRecord 40 5)) as [Hc Hw].
    + done.
    + simpl. lia.
    + split; [exact Hc|exact Hw].
Defined.

Lemma sample_luck_nonneg (k : string) : (0 <= Sample.luck k)%Q.
Proof. unfold Sample.luck. by destruct (_ <? _)%nat. Qed.

(** Opening the popup of a rectangle on the map of a session that has no
    popup yet. *)
Lemma reachable_open (luck : string → Q) (i j : Z) (w : Main.World) :
  Main.reachable luck (Main.mkSession w []) →
  mkCell i j ∈ Main.rects w →
  Main.reachable luck
    (Main.mkSession (Main.bindPopup luck i j w).2 [(Main.bindPopup luck i j w).1]).
Proof.
  intros Hs Hrect. eapply rtc_r; [exact Hs|].
  exact (Main.step_open luck (mkCell i j) (Main.mkSession w []) Hrect).
Qed.

(** The session of [src/main.ts] in which the player has opened the cache
    of cell (369890, -1220630). *)
Lemma sample_session_reachable :
  Main.reachable Sample.luck
    (Main.mkSession
       (Main.bindPopup Sample.luck 369890 (-1220630) (Main.initialWorld Sample.luck)).2
       [(Main.bindPopup Sample.luck 369890 (-1220630) (Main.initialWorld Sample.luck)).1]).
Proof.
  apply reachable_open; [exact (rtc_refl _ (Main.start Sample.luck))|].
  apply elem_of_rects_updateCaches. split.
  - unfold Main.in_window. vm_compute. intuition discriminate.
  - by vm_compute.
Qed.

(** Opening the popup of a circle on the map and clicking on its collect
    button, in the build with [CacheMemento]. *)
Lemma memento_reachable_open_collect
    (luck : string → Q) (coordinate_toString : Q → string)
    (s : Memento.Session) (l : LatLng) (random : Q) :
  Memento.reachable luck coordinate_toString s →
  l ∈ Memento.circles (Memento.world s) →
  (0 <= random)%Q → (random < 1)%Q →
  Memento.reachable luck coordinate_toString
    (Memento.mkSession
       (Memento.collect
          (Memento.bindPopup luck coordinate_toString (lat l) (lng l) random
             (Memento.world s)).1
          (Memento.bindPopup luck coordinate_toString (lat l) (lng l) random
             (Memento.world s)).2)
       ((Memento.bindPopup luck coordinate_toString (lat l) (lng l) random
           (Memento.world s)).1 :: Memento.popups s)).
Proof.
  intros Hs Hl H0 H1.
  eapply rtc_r;
    [eapply rtc_r;
       [exact Hs
       |exact (Memento.step_open luck coordinate_toString l random s Hl H0 H1)]|].
  set (p := (Memento.bindPopup _ _ _ _ _ _).1).
  set (w1 := (Memento.bindPopup _ _ _ _ _ _).2).
  apply (Memento.step_collect luck coordinate_toString p
           (Memento.mkSession w1 (p :: Memento.popups s))).
  by left.
Qed.

(** C5, evaluated on the build with [CacheMemento]. In any session of the
    game the player opens, for the first time, the popup of a circle on the
    map, and clicks on its collect button. The session reached has no
    negative counter, and the cache holds no coin. A second click on the
    same button is a collect that the cache cannot pay; it is not refused:
    it adds to the wallet the coins the cache held when the popup was built,
    at least one. The guard of the handler tests that constant, not
    [state.coinCount]. *)
Theorem memento_collect_on_empty_cache_is_not_refused
    (luck : string → Q) (coordinate_toString : Q → string)
    (s : Memento.Session) (l : LatLng) (random : Q) :
  Memento.reachable luck coordinate_toString s →
  l ∈ Memento.circles (Memento.world s) →
  (0 <= random)%Q → (random < 1)%Q →
  Memento.CacheMemento.getState
    (Memento.key coordinate_toString (lat l) (lng l)) (Memento.world s) = None →
  let p := (Memento.bindPopup luck coordinate_toString (lat l) (lng l) random
              (Memento.world s)).1 in
  let w1 := (Memento.bindPopup luck coordinate_toString (lat l) (lng l) random
               (Memento.world s)).2 in
  let w2 := Memento.collect p w1 in
  let s2 := Memento.mkSession w2 (p :: Memento.popups s) in
  Memento.reachable luck coordinate_toString s2
  ∧ p ∈ Memento.popups s2
  ∧ (∃ r, Memento.store_view w2 !! Memento.popup_key p = Some r
          ∧ coinCount r = 0)
  ∧ 0 ≤ Memento.playerCoins w2
  ∧ 1 ≤ Memento.generateCoins random ≤ 10
  ∧ Memento.playerCoins (Memento.collect p w2)
    = Memento.playerCoins w2 + Memento.generateCoins random
  ∧ Memento.collect p w2 ≠ w2.
Proof.
  intros Hs Hl H0 H1 Hnew p w1 w2 s2.
  pose proof (MementoFacts.generateCoins_range random H0 H1) as Hrange.
  assert (Hbind : Memento.bindPopup luck coordinate_toString (lat l) (lng l)
                    random (Memento.world s) = (p, w1)) by (by destruct (Memento.bindPopup _ _ _ _ _ _)).
  pose proof Hbind as Hfresh.
  rewrite (MementoFacts.memento_bindPopup_fresh luck coordinate_toString
             _ _ _ _ Hnew) in Hfresh.
  assert (Hcount : Memento.popup_coinCount p = Memento.generateCoins random).
  { by injection Hfresh as <- _. }
  assert (Hobj : Memento.objects w1 !! Memento.popup_state p
                 = Some (Memento.generated luck coordinate_toString
                           (lat l) (lng l) random)).
  { injection Hfresh as <- <-. simpl. by apply list_lookup_middle. }
  assert (Hs2 : Memento.reachable luck coordinate_toString s2)
    by (by apply memento_reachable_open_collect).
  split; [done|]. split; [by left|]. split.
  { eexists. split; [apply MementoFacts.store_view_collect; [lia|exact Hobj]|done]. }
  split.
  { by destruct (MementoFacts.memento_session_inv_reachable
                   luck coordinate_toString s2 Hs2). }
  split; [done|].
  assert (Hpay : Memento.playerCoins (Memento.collect p w2)
                 = Memento.playerCoins w2 + Memento.generateCoins random).
  { rewrite (MementoFacts.memento_collect_taken p w2) by lia.
    simpl. by rewrite Hcount. }
  split; [done|].
  intros Heq. rewrite Heq in Hpay. lia.
Qed.

(** The first circle on the map at the start of the game, opened with
    [Math.random()] = 0.45: the cache gets 5 coins, the first collect brings
    the wallet to 5 and the cache to 0, the second collect brings the wallet
    to 10. *)
Lemma memento_collect_on_empty_cache_is_not_refused_witness :
  let s := Memento.start Sample.luck Sample.coordinate_toString in
  let l := latLng (lat Memento.OAKES_CLASSROOM + inject_Z (-8) * Memento.TILE_DEGREES)
                  (lng Memento.OAKES_CLASSROOM + inject_Z (-8) * Memento.TILE_DEGREES) in
  let p := (Memento.bindPopup Sample.luck Sample.coordinate_toString
              (lat l) (lng l) (45 # 100) (Memento.world s)).1 in
  let w1 := (Memento.bindPopup Sample.luck Sample.coordinate_toString
               (lat l) (lng l) (45 # 100) (Memento.world s)).2 in
  let w2 := Memento.collect p w1 in
  Memento.reachable Sample.luck Sample.coordinate_toString
    (Memento.mkSession w2 [p])
  ∧ Memento.store_view w2 !! Memento.popup_key p = Some (mkCacheRecord 73 0)
  ∧ Memento.playerCoins w2 = 5
  ∧ Memento.playerCoins (Memento.collect p w2) = 10.
Proof.
  intros s l p w1 w2.
  destruct (memento_collect_on_empty_cache_is_not_refused
              Sample.luck Sample.coordinate_toString s l (45 # 100))
    as (Hs2 & _ & _ & _ & _ & Hpay & _).
  - apply rtc_refl.
  - apply (elem_of_circles_updateCaches Sample.luck Sample.coordinate_toString).
    exists (-8), (-8). split; [done|]. split; [done|]. by vm_compute.
  - done.
  - done.
  - by vm_compute.
  - split; [exact Hs2|]. split; [by vm_compute|]. split; [by vm_compute|].
    etrans; [exact Hpay|by vm_compute].
Defined.

(** C10. In [src/main.ts] every collect that takes a coin adds the point
    value of the cache to the player's points, so [k] collects from a cache
    that holds at least [k] coins add [k] times its point value; a deposit
    leaves the points as they are. *)
Theorem points_follow_collects
    (luck : string → Q) (s : Main.Session) (p : Main.Popup) (r : CacheRecord) :
  Main.reachable luck s →
  p ∈ Main.popups s →
  Main.cacheState (Main.world s) !! Main.popup_cacheKey p = Some r →
  (0 < coinCount r →
     ∃ w', Main.collect p (Main.world s) = Some w'
         ∧ Main.playerPoints w' = Main.playerPoints (Main.world s) + pointValue r
         ∧ Main.cacheState w' !! Main.popup_cacheKey p
           = Some (mkCacheRecord (pointValue r) (coinCount r - 1)))
  ∧ (∀ k : nat, Z.of_nat k ≤ coinCount r →
       ∃ w', Main.clicks (Main.collect p) k (Main.world s) = Some w'
           ∧ Main.playerPoints w'
             = Main.playerPoints (Main.world s) + Z.of_nat k * pointValue r)
  ∧ (∀ w', Main.deposit p (Main.world s) = Some w' →
       Main.playerPoints w' = Main.playerPoints (Main.world s)).
Proof.
  intros Hs Hin Hr.
  destruct (MainFacts.popups_bound_reachable luck s Hs p Hin) as (r' & Hr' & Hpv).
  assert (r' = r) as -> by congruence.
  split; [|split].
  - intros Hpos. eexists. split; [by apply MainFacts.collect_taken|].
    simpl. rewrite Hpv. split; [done|apply lookup_insert_eq].
  - intros k Hk. eexists. split; [by apply MainFacts.clicks_collect|].
    simpl. by rewrite Hpv.
  - intros w'. unfold Main.deposit. rewrite Hr.
    destruct (_ <? _); by intros [= <-].
Qed.

(** With the sample oracle, the cache of cell (369890, -1220630) is worth 73
    points and holds 7 coins: three collects bring 219 points. *)
Lemma points_follow_collects_witness :
  let s := Main.mkSession
       (Main.bindPopup Sample.luck 369890 (-1220630) (Main.initialWorld Sample.luck)).2
       [(Main.bindPopup Sample.luck 369890 (-1220630) (Main.initialWorld Sample.luck)).1] in
  let p := (Main.bindPopup Sample.luck 369890 (-1220630) (Main.initialWorld Sample.luck)).1 in
  ∃ w', Main.clicks (Main.collect p) 3 (Main.world s) = Some w'
      ∧ Main.playerPoints w' = 219.
Proof.
  intros s p.
  destruct (points_follow_collects Sample.luck s p (mkCacheRecord 73 7)
              sample_session_reachable) as (_ & Hk & _).
  - by apply list_elem_of_singleton.
  - by vm_compute.
  - destruct (Hk 3%nat) as (w' & Hrun & Hpts); [simpl; lia|].
    exists w'. split; [done|]. etrans; [exact Hpts|by vm_compute].
Defined.

(** * Properties of persistence *)

(** C6. Whatever the state of the game, once [saveState] has written it to
    the slot, a script started on that slot and run up to the end of
    [loadState] has the same session, field by field (location, points,
    coins and movement history), and a store that says the same of every
    key. *)
Theorem persistence_round_trip
    (luck : string → Q) (coordinate_toString : Q → string) (w : Memento.World) :
  ∃ w',
    Memento.loadState
      (Memento.boot luck coordinate_toString
         (Memento.localStorage (Memento.saveState w)))
    = Memento.Returned w'
    ∧ Memento.playerLocation w' = Memento.playerLocation w
    ∧ Memento.playerPoints w' = Memento.playerPoints w
    ∧ Memento.playerCoins w' = Memento.playerCoins w
    ∧ Memento.movementHistory w' = Memento.movementHistory w
    ∧ Memento.store_view w' = Memento.store_view w.
Proof.
  destruct (MementoFacts.loadState_snapshot w
              (Memento.boot luck coordinate_toString
                 (Memento.localStorage (Memento.saveState w))))
    as (w' & Hrun & Hses & Hview & _).
  { by rewrite MementoFacts.boot_spec. }
  exists w'. split; [done|]. by injection Hses as -> -> -> ->.
Qed.

(** The round trip on an empty store, on a store with one entry, and on a
    store whose keys are made of negative and positive numbers. *)
Example persistence_round_trip_examples :
  let save_and_load w :=
    match Memento.loadState
            (Memento.boot Sample.luck Sample.coordinate_toString
               (Memento.localStorage (Memento.saveState w))) with
    | Memento.Returned w' => Some (Memento.session w', Memento.store_view w')
    | _ => None
    end in
  let here := latLng (3698949 # 100000) (- (12206277 # 100000)) in
  let w0 := Memento.mkWorld here 0 0 [] ∅ [] [] None in
  let w1 := Memento.mkWorld here 146 2 [mkCacheRecord 73 4]
              {["37:-122" := 0%nat]} [here] [] None in
  let w2 := Memento.mkWorld here 146 2
              [mkCacheRecord 73 4; mkCacheRecord 12 0; mkCacheRecord 5 9]
              {["-37:122" := 0%nat; "37:-122" := 1%nat; "0:0" := 2%nat]}
              [here; latLng 0 0] [] None in
  save_and_load w0 = Some (Memento.session w0, Memento.store_view w0)
  ∧ save_and_load w1 = Some (Memento.session w1, Memento.store_view w1)
  ∧ save_and_load w2 = Some (Memento.session w2, Memento.store_view w2).
Proof. cbv zeta. split; [|split]; vm_compute; reflexivity. Qed.

(** C7 as it stands fails: [loadState] accepts malformed blobs. A blob
    without the field [cacheStates], and a blob whose [cacheStates] is the
    number 0 where [saveState] writes an array, are loaded to the end: the
    session is taken from the blob and the store is left empty. A blob whose
    [playerPoints] is a text is loaded to the end as well, the text
    assigned to [playerPoints]. On the empty text [loadState] does nothing.
    No error is raised in any of the four cases. *)
Lemma malformed_blobs_are_accepted :
  let blob fields :=
    JObj ([("playerLocation", JObj [("lat", JNum 37); ("lng", JNum (-122))]);
           ("playerCoins", JNum 3);
           ("movementHistory", JArr [])] ++ fields) in
  let v1 := blob [("playerPoints", JNum 7)] in
  let v2 := blob [("playerPoints", JNum 7); ("cacheStates", JNum 0)] in
  let v3 := blob [("playerPoints", JStr "many"); ("cacheStates", JArr [])] in
  let load slot :=
    Memento.loadState (Memento.boot Sample.luck Sample.coordinate_toString slot) in
  let restored w' :=
    Memento.playerLocation w' = latLng 37 (-122)
    ∧ Memento.playerPoints w' = 7
    ∧ Memento.playerCoins w' = 3
    ∧ Memento.store_view w' = ∅ in
  (js_get v1 "cacheStates" = None
   ∧ ∃ w', load (Some (Parsed v1)) = Memento.Returned w' ∧ restored w')
  ∧ (js_get v2 "cacheStates" = Some (JNum 0)
     ∧ ∃ w', load (Some (Parsed v2)) = Memento.Returned w' ∧ restored w')
  ∧ (js_get v3 "playerPoints" = Some (JStr "many")
     ∧ load (Some (Parsed v3)) = Memento.Untyped None)
  ∧ load (Some Empty)
    = Memento.Returned
        (Memento.boot Sample.luck Sample.coordinate_toString (Some Empty)).
Proof.
  intros blob v1 v2 v3 load restored.
  split; [split; [reflexivity|]|
          split; [split; [reflexivity|]|split; [split; [reflexivity|]|]]].
  - eexists. split.
    + apply (MementoFacts.loadState_without_store _ v1 (latLng 37 (-122)) 7 3 []);
        [apply MementoFacts.localStorage_boot|reflexivity..].
    + split; [|split; [|split]]; [reflexivity..|apply omap_empty].
  - eexists. split.
    + apply (MementoFacts.loadState_without_store _ v2 (latLng 37 (-122)) 7 3 []);
        [apply MementoFacts.localStorage_boot|reflexivity..].
    + split; [|split; [|split]]; [reflexivity..|apply omap_empty].
  - vm_compute. reflexivity.
  - unfold load. rewrite MementoFacts.boot_spec. reflexivity.
Qed.

(** C7, amended. [loadState] has no error of its own and nothing in it
    catches one or tests a type.
    - On the empty text it does nothing.
    - On another text that does not parse it stops with the [SyntaxError]
      of [JSON.parse], and on a blob whose [playerLocation] is missing or
      [null] with a [TypeError]; in both cases nothing has been written.
    - A blob whose [cacheStates] is missing or another false value ([null],
      [false], 0, the empty text), and that is otherwise as [saveState]
      writes it, is accepted: the session is restored and the store left
      empty.
    - A blob whose [cacheStates] is a true value other than an array stops
      with a [TypeError] after location and counters have been restored and
      the store cleared.
    - A blob whose [movementHistory] is not an array stops with a
      [TypeError] after location, counters and store have been restored.
    - A blob whose [playerPoints] or [playerCoins] is not an integer, and
      that is otherwise as [saveState] writes it, is loaded to the end
      without an error. *)
Theorem loadState_on_malformed_blobs (w : Memento.World) :
  (Memento.localStorage w = Some Empty →
   Memento.loadState w = Memento.Returned w)
  ∧ (Memento.localStorage w = Some Unparseable →
     Memento.loadState w = Memento.Thrown Memento.SyntaxError w)
  ∧ (∀ v, Memento.localStorage w = Some (Parsed v) →
       js_get v "playerLocation" = None ∨ js_get v "playerLocation" = Some JNull →
       Memento.loadState w = Memento.Thrown Memento.TypeError w)
  ∧ (∀ v l points coins h,
       Memento.localStorage w = Some (Parsed v) →
       js_get v "playerLocation" = Some (Memento.json_of_LatLng l) →
       js_get v "playerPoints" = Some (Memento.json_of_Z points) →
       js_get v "playerCoins" = Some (Memento.json_of_Z coins) →
       truthy (js_get v "cacheStates") = false →
       js_get v "movementHistory" = Some (JArr (Memento.json_of_LatLng <$> h)) →
       Memento.loadState w
       = Memento.Returned
           (Memento.set_movementHistory h
              (Memento.CacheMemento.clearStates
                 (Memento.set_counters points coins
                    (Memento.setLocation l w)))))
  ∧ (∀ v l points coins,
       Memento.localStorage w = Some (Parsed v) →
       js_get v "playerLocation" = Some (Memento.json_of_LatLng l) →
       js_get v "playerPoints" = Some (Memento.json_of_Z points) →
       js_get v "playerCoins" = Some (Memento.json_of_Z coins) →
       truthy (js_get v "cacheStates") = true →
       (∀ items, js_get v "cacheStates" ≠ Some (JArr items)) →
       Memento.loadState w
       = Memento.Thrown Memento.TypeError
           (Memento.CacheMemento.clearStates
              (Memento.set_counters points coins
                 (Memento.setLocation l w))))
  ∧ (∀ v l points coins es,
       Memento.localStorage w = Some (Parsed v) →
       js_get v "playerLocation" = Some (Memento.json_of_LatLng l) →
       js_get v "playerPoints" = Some (Memento.json_of_Z points) →
       js_get v "playerCoins" = Some (Memento.json_of_Z coins) →
       js_get v "cacheStates" = Some (JArr (Memento.json_of_entry <$> es)) →
       (∀ items, js_get v "movementHistory" ≠ Some (JArr items)) →
       ∃ w', Memento.loadState w = Memento.Thrown Memento.TypeError w'
           ∧ Memento.playerLocation w' = l
           ∧ Memento.playerPoints w' = points
           ∧ Memento.playerCoins w' = coins
           ∧ Memento.store_view w' = foldl (λ m e, <[e.1 := e.2]> m) ∅ es
           ∧ Memento.movementHistory w' = Memento.movementHistory w)
  ∧ (∀ v l es h,
       Memento.localStorage w = Some (Parsed v) →
       js_get v "playerLocation" = Some (Memento.json_of_LatLng l) →
       Memento.as_integer (js_get v "playerPoints") = None
       ∨ Memento.as_integer (js_get v "playerCoins") = None →
       js_get v "cacheStates" = Some (JArr (Memento.json_of_entry <$> es)) →
       js_get v "movementHistory" = Some (JArr (Memento.json_of_LatLng <$> h)) →
       Memento.loadState w = Memento.Untyped None).
Proof.
  split; [|split; [|split; [|split; [|split; [|split]]]]].
  - intros Hslot. unfold Memento.loadState. by rewrite Hslot.
  - intros Hslot. unfold Memento.loadState. by rewrite Hslot.
  - intros v Hslot Hloc. unfold Memento.loadState. rewrite Hslot.
    destruct v; try done; cbv zeta; by destruct Hloc as [-> | ->].
  - intros v l points coins h. apply MementoFacts.loadState_without_store.
  - intros v l points coins Hslot Hloc Hpts Hcoins Htrue Harr.
    rewrite (MementoFacts.loadState_located w v l Hslot Hloc). cbv zeta.
    rewrite Hpts, Hcoins, Htrue. unfold Memento.assign_counters.
    rewrite !MementoFacts.as_integer_json_of_Z.
    destruct (js_get v "cacheStates") as [[| | | |items|]|]; try done.
    by destruct (Harr items).
  - intros v l points coins es Hslot Hloc Hpts Hcoins Hstore Hhist.
    rewrite (MementoFacts.loadState_located w v l Hslot Hloc). cbv zeta.
    rewrite Hpts, Hcoins, Hstore. unfold Memento.assign_counters.
    rewrite !MementoFacts.as_integer_json_of_Z.
    change (truthy (Some (JArr _))) with true. cbv iota.
    set (w3 := Memento.CacheMemento.clearStates _).
    destruct (MementoFacts.forEach_saveState_entries es true w3)
      as (w4 & -> & _ & Hses & _ & _ & Hview & _).
    { intros k a. unfold w3.
      cbn [Memento.CacheMemento.clearStates Memento.cacheStates].
      by rewrite lookup_empty. }
    exists w4. split.
    { destruct (js_get v "movementHistory") as [[| | | |items|]|]; try done.
      by destruct (Hhist items). }
    injection Hses as Hl Hp Hc Hh.
    assert (Memento.store_view w3 = ∅) as Hempty.
    { unfold Memento.store_view, w3.
      cbn [Memento.CacheMemento.clearStates Memento.cacheStates].
      by rewrite omap_empty. }
    rewrite Hempty in Hview. by repeat split.
  - intros v l es h Hslot Hloc Hcounters Hstore Hhist.
    rewrite (MementoFacts.loadState_located w v l Hslot Hloc). cbv zeta.
    rewrite Hstore, Hhist.
    assert (∃ w2, Memento.assign_counters (js_get v "playerPoints")
                    (js_get v "playerCoins") (Memento.setLocation l w)
                  = (false, w2)) as [w2 ->].
    { unfold Memento.assign_counters.
      destruct Hcounters as [-> | ->]; [by eexists|].
      destruct (Memento.as_integer (js_get v "playerPoints")); by eexists. }
    change (truthy (Some (JArr _))) with true. cbv iota.
    set (w3 := Memento.CacheMemento.clearStates _).
    destruct (MementoFacts.forEach_saveState_entries es false w3)
      as (w4 & -> & _).
    { intros k a. unfold w3.
      cbn [Memento.CacheMemento.clearStates Memento.cacheStates].
      by rewrite lookup_empty. }
    by rewrite MementoFacts.map_latLng_json.
Qed.

(** A text that does not parse; a blob whose [cacheStates] is [false]; a
    blob whose [cacheStates] is an object; a blob whose [playerCoins] is
    missing. *)
Lemma loadState_on_malformed_blobs_witness :
  let boot := Memento.boot Sample.luck Sample.coordinate_toString in
  let blob fields :=
    JObj ([("playerLocation", JObj [("lat", JNum 37); ("lng", JNum (-122))]);
           ("playerPoints", JNum 7);
           ("movementHistory", JArr [])] ++ fields) in
  let v1 := blob [("playerCoins", JNum 3); ("cacheStates", JBool false)] in
  let v2 := blob [("playerCoins", JNum 3); ("cacheStates", JObj [])] in
  let v3 := blob [("cacheStates", JArr [])] in
  let restored w :=
    Memento.CacheMemento.clearStates
      (Memento.set_counters 7 3 (Memento.setLocation (latLng 37 (-122)) w)) in
  Memento.loadState (boot (Some Unparseable))
  = Memento.Thrown Memento.SyntaxError (boot (Some Unparseable))
  ∧ Memento.loadState (boot (Some (Parsed v1)))
    = Memento.Returned
        (Memento.set_movementHistory [] (restored (boot (Some (Parsed v1)))))
  ∧ Memento.loadState (boot (Some (Parsed v2)))
    = Memento.Thrown Memento.TypeError (restored (boot (Some (Parsed v2))))
  ∧ Memento.loadState (boot (Some (Parsed v3))) = Memento.Untyped None.
Proof.
  intros boot blob v1 v2 v3 restored.
  assert (Hslot : ∀ slot, Memento.localStorage (boot slot) = slot).
  { intros slot. unfold boot. by rewrite MementoFacts.boot_spec. }
  split; [|split; [|split]].
  - by apply (proj1 (proj2 (loadState_on_malformed_blobs (boot (Some Unparseable))))).
  - by apply (proj1 (proj2 (proj2 (proj2
                (loadState_on_malformed_blobs (boot (Some (Parsed v1)))))))
             v1 (latLng 37 (-122)) 7 3 []).
  - apply (proj1 (proj2 (proj2 (proj2 (proj2
                (loadState_on_malformed_blobs (boot (Some (Parsed v2))))))))
             v2 (latLng 37 (-122)) 7 3); try done.
  - apply (proj2 (proj2 (proj2 (proj2 (proj2 (proj2
                (loadState_on_malformed_blobs (boot (Some (Parsed v3)))))))))
             v3 (latLng 37 (-122)) [] []); try done.
    by right.
Defined.

(** * Properties of the coordinate flyweight *)

(** C8. Two points whose coordinates, divided by the cell size, floor to the
    same pair of indices get the same [Coordinate] object from the factory,
    whatever other points are looked up in between: the same reference,
    which holds that pair of indices; and the second lookup leaves the
    registry as it was. *)
Theorem canonical_coordinates
    (R : Flyweight.Registry) (lat1 lng1 lat2 lng2 : Q) (between : list (Q * Q)) :
  Flyweight.reachable R →
  Math_floor (lat1 / Flyweight.cellSize) = Math_floor (lat2 / Flyweight.cellSize) →
  Math_floor (lng1 / Flyweight.cellSize) = Math_floor (lng2 / Flyweight.cellSize) →
  let R1 := (Flyweight.getCoordinate lat1 lng1 R).2 in
  let R2 := Flyweight.calls between R1 in
  let cell := mkCell (Math_floor (lat1 / Flyweight.cellSize))
                     (Math_floor (lng1 / Flyweight.cellSize)) in
  ∃ a : nat,
    (Flyweight.getCoordinate lat1 lng1 R).1 = Some a
    ∧ Flyweight.objects R1 !! a = Some cell
    ∧ Flyweight.getCoordinate lat2 lng2 R2 = (Some a, R2)
    ∧ Flyweight.objects R2 !! a = Some cell.
Proof.
  intros HR Hlat Hlng R1 R2 cell.
  destruct (FlyweightFacts.getCoordinate_spec lat1 lng1 R
              (FlyweightFacts.wf_reachable R HR)) as (a & Ha & Hk & Hc).
  destruct (FlyweightFacts.calls_keep between R1 _ a cell Hk Hc) as [Hk2 Hc2].
  exists a. repeat split; try done.
  apply FlyweightFacts.getCoordinate_known. by rewrite <-Hlat, <-Hlng.
Qed.

(** Two points of the cell (369916, -1220633), with a lookup of another
    cell in between, on a registry that already knows a third cell. *)
Lemma canonical_coordinates_witness :
  let R := (Flyweight.getCoordinate 0 0 Flyweight.empty).2 in
  let R1 := (Flyweight.getCoordinate (3699161 # 100000) (- (12206329 # 100000)) R).2 in
  let R2 := Flyweight.calls [((1 # 2)%Q, (1 # 3)%Q)] R1 in
  ∃ a : nat,
    (Flyweight.getCoordinate (3699161 # 100000) (- (12206329 # 100000)) R).1 = Some a
    ∧ Flyweight.objects R1 !! a = Some (mkCell 369916 (-1220633))
    ∧ Flyweight.getCoordinate (3699169 # 100000) (- (12206321 # 100000)) R2
      = (Some a, R2)
    ∧ Flyweight.objects R2 !! a = Some (mkCell 369916 (-1220633)).
Proof.
  intros R R1 R2.
  apply (canonical_coordinates R
           (3699161 # 100000) (- (12206329 # 100000))
           (3699169 # 100000) (- (12206321 # 100000))
           [((1 # 2)%Q, (1 # 3)%Q)]).
  - apply Flyweight.reachable_get, Flyweight.reachable_empty.
  - by vm_compute.
  - by vm_compute.
Defined.

(** * Further properties of the keys *)

(** A character that is neither the sign nor a digit does not occur in the
    decimal notation of an integer. *)
Lemma separator_not_in_number (c : ascii) (z : Z) :
  c ≠ "-"%char → (∀ d : N, (d < 10)%N → c ≠ pretty_N_char d) →
  ¬ occurs c (Number_toString z).
Proof.
  intros Hsign Hdigit [Hc|Hd]%occurs_pretty_Z; [done|].
  by apply (not_digit c Hdigit).
Qed.

Lemma comma_not_in_number (z : Z) : ¬ occurs ","%char (Number_toString z).
Proof.
  apply separator_not_in_number; [done|].
  intros d Hd. unfold pretty_N_char. by repeat case_match.
Qed.

Lemma cacheKey_inj (i j i' j' : Z) :
  Main.cacheKey i j = Main.cacheKey i' j' → i = i' ∧ j = j'.
Proof.
  unfold Main.cacheKey. intros Heq.
  apply (separated_inj ","%char) in Heq as [Hi Hj];
    [|apply comma_not_in_number..].
  split; by apply (inj pretty).
Qed.

Lemma tagged_key_inj (i j i' j' : Z) (tag tag' : string) :
  Array_toString [Number_toString i; Number_toString j; tag]
  = Array_toString [Number_toString i'; Number_toString j'; tag'] →
  i = i' ∧ j = j' ∧ tag = tag'.
Proof.
  unfold Array_toString. simpl. intros Heq.
  apply (separated_inj ","%char) in Heq as [Hi Heq];
    [|apply comma_not_in_number..].
  apply (separated_inj ","%char) in Heq as [Hj Htag];
    [|apply comma_not_in_number..].
  repeat split; [by apply (inj pretty)..|done].
Qed.

Lemma plain_key_not_tagged (i j i' j' : Z) (tag : string) :
  Array_toString [Number_toString i; Number_toString j]
  ≠ Array_toString [Number_toString i'; Number_toString j'; tag].
Proof.
  unfold Array_toString. simpl. intros Heq.
  apply (separated_inj ","%char) in Heq as [_ Heq];
    [|apply comma_not_in_number..].
  apply (comma_not_in_number j). rewrite Heq.
  apply occurs_app. right. by left.
Qed.

(** X1. The three questions that [src/main.ts] asks the oracle about the
    cells never share a key: the key of the existence test, the key of the
    point value and the key of the coin count of any cells are pairwise
    different, and each of them, like the key of the store, tells the cell
    it was built from. *)
Theorem oracle_keys_are_separate (i j i' j' : Z) :
  Array_toString [Number_toString i; Number_toString j]
    ≠ Array_toString [Number_toString i'; Number_toString j'; "initialValue"]
  ∧ Array_toString [Number_toString i; Number_toString j]
    ≠ Array_toString [Number_toString i'; Number_toString j'; "coinCount"]
  ∧ Array_toString [Number_toString i; Number_toString j; "initialValue"]
    ≠ Array_toString [Number_toString i'; Number_toString j'; "coinCount"]
  ∧ (Main.cacheKey i j = Main.cacheKey i' j' ↔ i = i' ∧ j = j')
  ∧ (Array_toString [Number_toString i; Number_toString j]
     = Array_toString [Number_toString i'; Number_toString j'] ↔ i = i' ∧ j = j')
  ∧ (Array_toString [Number_toString i; Number_toString j; "initialValue"]
     = Array_toString [Number_toString i'; Number_toString j'; "initialValue"]
     ↔ i = i' ∧ j = j')
  ∧ (Array_toString [Number_toString i; Number_toString j; "coinCount"]
     = Array_toString [Number_toString i'; Number_toString j'; "coinCount"]
     ↔ i = i' ∧ j = j').
Proof.
  split; [apply plain_key_not_tagged|].
  split; [apply plain_key_not_tagged|].
  split; [by intros (_ & _ & ?)%tagged_key_inj|].
  split; [split; [apply cacheKey_inj|by intros [-> ->]]|].
  split; [split; [apply cacheKey_inj|by intros [-> ->]]|].
  split; (split; [intros (? & ? & _)%tagged_key_inj; by split|by intros [-> ->]]).
Qed.

(** * Further properties of [src/main.ts] *)
Module MainEconomy.
Import Main.

Lemma coins_in_caches_insert_new (m : gmap string CacheRecord) (k : string) (r : CacheRecord) :
  m !! k = None →
  coins_in_caches (<[k := r]> m) = coinCount r + coins_in_caches m.
Proof.
  intros Hk. unfold coins_in_caches.
  rewrite map_fold_insert_L; [done| |done]. intros; lia.
Qed.

Lemma coins_in_caches_insert (m : gmap string CacheRecord) (k : string) (r r' : CacheRecord) :
  m !! k = Some r →
  coins_in_caches (<[k := r']> m) = coins_in_caches m - coinCount r + coinCount r'.
Proof.
  intros Hk.
  assert (coins_in_caches m = coinCount r + coins_in_caches (delete k m)) as ->.
  { rewrite <-(insert_id m k r Hk) at 1. rewrite <-insert_delete_eq.
    apply coins_in_caches_insert_new, lookup_delete_eq. }
  rewrite <-insert_delete_eq.
  rewrite coins_in_caches_insert_new by apply lookup_delete_eq. lia.
Qed.

(** X2. In [src/main.ts] no click creates or destroys a coin: whenever the
    handler of a collect or of a deposit runs to its end, the coins of the
    wallet and of all the caches of the store together are as many as
    before. *)
Theorem clicks_conserve_coins (p : Popup) (w w' : World) :
  collect p w = Some w' ∨ deposit p w = Some w' →
  coins_in_game w' = coins_in_game w.
Proof.
  unfold coins_in_game, collect, deposit.
  intros [Hrun|Hrun].
  - destruct (cacheState w !! popup_cacheKey p) as [r|] eqn:Hr; [|done].
    destruct (0 <? coinCount r); injection Hrun as <-; [|done]. simpl.
    rewrite (coins_in_caches_insert _ _ r) by done. simpl. lia.
  - destruct (0 <? playerCoins w); [|by injection Hrun as <-].
    destruct (cacheState w !! popup_cacheKey p) as [r|] eqn:Hr; [|done].
    injection Hrun as <-. simpl.
    rewrite (coins_in_caches_insert _ _ r) by done. simpl. lia.
Qed.

(** A store of two caches with 5 and 2 coins and a wallet of 3: ten coins
    before and after a collect from the first cache. *)
Lemma clicks_conserve_coins_witness :
  let p := mkPopup 1 2 "1,2" 40 5 in
  let w := mkWorld OAKES_CLASSROOM 0 3
             {["1,2" := mkCacheRecord 40 5; "3,4" := mkCacheRecord 7 2]} [] in
  ∃ w', collect p w = Some w' ∧ coins_in_game w' = 10 ∧ coins_in_game w = 10.
Proof.
  intros p w. eexists. split; [by vm_compute|].
  split; [|by vm_compute].
  etrans; [apply (clicks_conserve_coins p w); left; by vm_compute|by vm_compute].
Defined.

Section WithOracle.

Variable luck : string → Q.

(** Opening a popup for the first time puts the coins of a new cache into
    the game; opening it again adds nothing. *)
Lemma bindPopup_coins (i j : Z) (w : World) :
  coins_in_game (bindPopup luck i j w).2
  = coins_in_game w
    + match cacheState w !! cacheKey i j with
      | Some _ => 0
      | None => coinCount (initialRecord luck i j)
      end.
Proof.
  unfold coins_in_game.
  destruct (cacheState w !! cacheKey i j) as [r|] eqn:Hr.
  - rewrite (MainFacts.bindPopup_known luck i j w r Hr).
    cbn [snd]. lia.
  - rewrite (MainFacts.bindPopup_fresh luck i j w Hr).
    cbn [snd set_cacheState playerCoins cacheState].
    rewrite coins_in_caches_insert_new by done. lia.
Qed.

Lemma store_generated_step (s s' : Session) :
  (∀ p, p ∈ popups s → popup_bound (world s) p) →
  store_generated luck (world s) → step luck s s' →
  store_generated luck (world s').
Proof.
  intros Hp Hgen Hstep. unfold store_generated in *.
  destruct Hstep as [d s|c s Hrect|p s w' Hin Hrun|p s w' Hin Hrun];
    cbn [world popups].
  - destruct (MainFacts.move_keeps luck d (world s)) as (Hst & _ & _).
    by rewrite Hst.
  - destruct c as [i j]; cbn [cell_i cell_j].
    destruct (cacheState (world s) !! cacheKey i j) as [r|] eqn:Hr.
    + by rewrite (MainFacts.bindPopup_known _ _ _ _ r Hr).
    + rewrite (MainFacts.bindPopup_fresh _ _ _ _ Hr). simpl.
      intros k r [[<- <-]|[Hne Hk]]%lookup_insert_Some; [by exists i, j|eauto].
  - destruct (Hp p Hin) as (r & Hr & _).
    destruct (Z.lt_ge_cases 0 (coinCount r)) as [Hpos|Hzero].
    + rewrite (MainFacts.collect_taken p _ r Hr Hpos) in Hrun.
      injection Hrun as <-. simpl.
      intros k r' [[<- <-]|[Hne Hk]]%lookup_insert_Some; [|eauto].
      destruct (Hgen _ _ Hr) as (i & j & Hkey & Hpv). by exists i, j.
    + rewrite (MainFacts.collect_refused p _ r Hr Hzero) in Hrun.
      by injection Hrun as <-.
  - destruct (Hp p Hin) as (r & Hr & _).
    destruct (Z.lt_ge_cases 0 (playerCoins (world s))) as [Hpos|Hzero].
    + rewrite (MainFacts.deposit_given p _ r Hr Hpos) in Hrun.
      injection Hrun as <-. simpl.
      intros k r' [[<- <-]|[Hne Hk]]%lookup_insert_Some; [|eauto].
      destruct (Hgen _ _ Hr) as (i & j & Hkey & Hpv). by exists i, j.
    + rewrite (MainFacts.deposit_refused p _ Hzero) in Hrun.
      by injection Hrun as <-.
Qed.

Lemma store_generated_reachable (s : Session) :
  reachable luck s →
  (∀ p, p ∈ popups s → popup_bound (world s) p)
  ∧ store_generated luck (world s).
Proof.
  unfold reachable. revert s.
  apply (rtc_ind_r
           (λ s, (∀ p, p ∈ popups s → popup_bound (world s) p)
                 ∧ store_generated luck (world s)) (start luck)).
  - split; [intros p Hp; by apply elem_of_nil in Hp|].
    intros k r. unfold start, initialWorld. simpl.
    rewrite MainFacts.cacheState_updateCaches. simpl. by rewrite lookup_empty.
  - intros s s' _ Hstep [Hp Hgen]. split.
    + by apply (MainFacts.popups_bound_step luck s s').
    + by apply (store_generated_step s s').
Qed.

(** X3. In [src/main.ts] the point value of a cache never changes: whatever
    the player has done since the start, the entry of the store for cell
    [(i, j)] still has the point value the oracle gave the cell, and every
    entry of the store is the entry of some cell. *)
Theorem point_value_is_immutable (s : Session) (i j : Z) (r : CacheRecord) :
  reachable luck s →
  cacheState (world s) !! cacheKey i j = Some r →
  pointValue r = pointValue (initialRecord luck i j)
  ∧ ∀ k r', cacheState (world s) !! k = Some r' → ∃ i' j', k = cacheKey i' j'.
Proof.
  intros Hs Hr. destruct (store_generated_reachable s Hs) as [_ Hgen]. split.
  - destruct (Hgen _ _ Hr) as (i' & j' & [-> ->]%cacheKey_inj & Hpv). done.
  - intros k r' Hk. destruct (Hgen _ _ Hk) as (i' & j' & -> & _). eauto.
Qed.

Section NonNegativeOracle.

Hypothesis luck_nonneg : ∀ k, (0 <= luck k)%Q.

Lemma initialRecord_points_nonneg (i j : Z) :
  0 ≤ pointValue (initialRecord luck i j).
Proof.
  unfold initialRecord, pointValue.
  apply MainFacts.Math_floor_nonneg, Qmult_le_0_compat; [apply luck_nonneg|done].
Qed.

(** X4. In [src/main.ts], with an oracle that answers 0 or more, no action
    of the player ever lowers the points: they grow on a collect that takes
    a coin and stay as they are otherwise. *)
Theorem points_never_decrease (s s' : Session) :
  reachable luck s → step luck s s' →
  playerPoints (world s) ≤ playerPoints (world s').
Proof.
  intros Hs Hstep. destruct (store_generated_reachable s Hs) as [Hp Hgen].
  destruct Hstep as [d s|c s Hrect|p s w' Hin Hrun|p s w' Hin Hrun];
    cbn [world popups].
  - destruct (MainFacts.move_keeps luck d (world s)) as (_ & _ & Hpts). lia.
  - unfold bindPopup. simpl. by destruct (cacheState (world s) !! _).
  - destruct (Hp p Hin) as (r & Hr & Hpv).
    destruct (Hgen _ _ Hr) as (i & j & _ & Hinit).
    pose proof (initialRecord_points_nonneg i j).
    destruct (Z.lt_ge_cases 0 (coinCount r)) as [Hpos|Hzero].
    + rewrite (MainFacts.collect_taken p _ r Hr Hpos) in Hrun.
      injection Hrun as <-. simpl. lia.
    + rewrite (MainFacts.collect_refused p _ r Hr Hzero) in Hrun.
      by injection Hrun as <-.
  - unfold deposit in Hrun. destruct (0 <? playerCoins (world s)).
    + destruct (cacheState (world s) !! popup_cacheKey p); [|done].
      by injection Hrun as <-.
    + by injection Hrun as <-.
Qed.

End NonNegativeOracle.

(** *** Scanning again *)

Lemma length_bind_le {A B : Type} (f : A → list B) (n : nat) (l : list A) :
  (∀ x, (length (f x) ≤ n)%nat) → (length (l ≫= f) ≤ length l * n)%nat.
Proof.
  intros Hf. induction l as [|x l IH]; [done|].
  rewrite bind_cons, length_app. simpl. pose proof (Hf x). lia.
Qed.

Lemma length_spawned (pc : Cell) :
  (length (spawned luck NEIGHBORHOOD_SIZE pc) ≤ 289)%nat.
Proof.
  unfold spawned.
  etrans; [apply (length_bind_le _ 17)|
           rewrite length_seqZ; unfold NEIGHBORHOOD_SIZE; lia].
  intros i.
  etrans; [apply (length_bind_le _ 1)|
           rewrite length_seqZ; unfold NEIGHBORHOOD_SIZE; lia].
  intros j. unfold spawned_at. destruct (Qltb _ _); simpl; lia.
Qed.

(** X5. [updateCaches] of [src/main.ts] starts from a map without
    rectangles: scanning twice leaves the same state as scanning once, at
    most 289 rectangles are on the map after a scan, and a scan touches
    neither the player's position, points and wallet nor the store. *)
Theorem updateCaches_starts_afresh (w : World) :
  updateCaches luck (updateCaches luck w) = updateCaches luck w
  ∧ (length (rects (updateCaches luck w)) ≤ 289)%nat
  ∧ playerLocation (updateCaches luck w) = playerLocation w
  ∧ playerPoints (updateCaches luck w) = playerPoints w
  ∧ playerCoins (updateCaches luck w) = playerCoins w
  ∧ cacheState (updateCaches luck w) = cacheState w.
Proof.
  rewrite !MainFacts.updateCaches_spec. simpl.
  repeat split. apply length_spawned.
Qed.

End WithOracle.
End MainEconomy.

(** The cache of cell (369890, -1220630), opened in the sample session. *)
Lemma point_value_is_immutable_witness :
  let s := Main.mkSession
       (Main.bindPopup Sample.luck 369890 (-1220630) (Main.initialWorld Sample.luck)).2
       [(Main.bindPopup Sample.luck 369890 (-1220630) (Main.initialWorld Sample.luck)).1] in
  pointValue (mkCacheRecord 73 7)
  = pointValue (Main.initialRecord Sample.luck 369890 (-1220630))
  ∧ ∀ k r', Main.cacheState (Main.world s) !! k = Some r' →
            ∃ i' j', k = Main.cacheKey i' j'.
Proof.
  intros s.
  apply (MainEconomy.point_value_is_immutable Sample.luck s 369890 (-1220630)
           (mkCacheRecord 73 7) sample_session_reachable).
  by vm_compute.
Defined.

(** A collect in the sample session. *)
Lemma points_never_decrease_witness :
  let s := Main.mkSession
       (Main.bindPopup Sample.luck 369890 (-1220630) (Main.initialWorld Sample.luck)).2
       [(Main.bindPopup Sample.luck 369890 (-1220630) (Main.initialWorld Sample.luck)).1] in
  ∃ s', Main.step Sample.luck s s'
      ∧ Main.playerPoints (Main.world s) ≤ Main.playerPoints (Main.world s').
Proof.
  intros s.
  pose (p := (Main.bindPopup Sample.luck 369890 (-1220630)
                (Main.initialWorld Sample.luck)).1).
  assert (Main.cacheState (Main.world s) !! Main.popup_cacheKey p
          = Some (mkCacheRecord 73 7)) as Hr by (by vm_compute).
  pose proof (MainFacts.collect_taken p (Main.world s) _ Hr eq_refl) as Hrun.
  pose proof (Main.step_collect Sample.luck p s _ (list_elem_of_here p []) Hrun)
    as Hstep.
  eexists. split; [exact Hstep|].
  exact (MainEconomy.points_never_decrease Sample.luck sample_luck_nonneg
           s _ sample_session_reachable Hstep).
Defined.

(** X6. In [src/main.ts], [n] collects from a cache that holds [c >= n]
    coins leave [c - n] coins in it and add [n] coins to the wallet, without
    touching any other cache; a collect from a cache without coins changes
    nothing. *)
Theorem main_collect_conservation
    (n : nat) (p : Main.Popup) (w : Main.World) (r : CacheRecord) :
  Main.cacheState w !! Main.popup_cacheKey p = Some r →
  (Z.of_nat n ≤ coinCount r →
   ∃ w', Main.clicks (Main.collect p) n w = Some w'
       ∧ Main.cacheState w' !! Main.popup_cacheKey p
         = Some (mkCacheRecord (pointValue r) (coinCount r - Z.of_nat n))
       ∧ Main.playerCoins w' = Main.playerCoins w + Z.of_nat n
       ∧ (∀ k, k ≠ Main.popup_cacheKey p →
            Main.cacheState w' !! k = Main.cacheState w !! k))
  ∧ (coinCount r = 0 → Main.collect p w = Some w).
Proof.
  intros Hr. split.
  - intros Hn. eexists. split; [by apply MainFacts.clicks_collect|].
    simpl. split; [apply lookup_insert_eq|]. split; [done|].
    intros k Hk. by rewrite lookup_insert_ne.
  - intros Hz. apply (MainFacts.collect_refused p w r Hr). lia.
Qed.

(** Three coins collected from a cache of five. *)
Lemma main_collect_conservation_witness :
  let p := Main.mkPopup 1 2 "1,2" 40 5 in
  let w := Main.mkWorld Main.OAKES_CLASSROOM 0 0
             {["1,2" := mkCacheRecord 40 5]} [] in
  ∃ w', Main.clicks (Main.collect p) 3 w = Some w'
      ∧ Main.cacheState w' !! "1,2" = Some (mkCacheRecord 40 2)
      ∧ Main.playerCoins w' = 3.
Proof.
  intros p w.
  destruct (main_collect_conservation 3 p w (mkCacheRecord 40 5)) as [Hn _];
    [by vm_compute|].
  destruct Hn as (w' & Hrun & Hc & Hw & _); [simpl; lia|].
  exists w'. split; [done|]. split; [exact Hc|exact Hw].
Defined.

(** * Further properties of [src/example.ts] *)

Lemma example_collect_iter (luck : string → Q) (n : nat) (c : CacheRecord) (p : Example.Player) :
  Z.of_nat n ≤ coinCount c →
  Nat.iter n Example.collect (c, p)
  = (mkCacheRecord (pointValue c) (coinCount c - Z.of_nat n),
     Example.mkPlayer (Example.playerPoints p + Z.of_nat n * pointValue c)
                      (Example.playerCoins p + Z.of_nat n)).
Proof.
  induction n as [|n IH]; intros Hn.
  - simpl. destruct c, p; simpl. f_equal; f_equal; lia.
  - rewrite Nat.iter_succ, IH by lia. unfold Example.collect.
    cbn [coinCount pointValue Example.playerPoints Example.playerCoins].
    destruct (Z.ltb_spec 0 (coinCount c - Z.of_nat n)); [|lia].
    f_equal; f_equal; lia.
Qed.

(** X7. [src/example.ts] keeps the coins of a cache in local variables of
    the popup callback, which starts them anew from the oracle each time
    the popup is opened. So a visit that collects [n] of the [c] coins of a
    cache brings [n] coins and [n] times the point value, and it does so
    again on every later visit: the cache is never depleted. *)
Theorem example_cache_refills
    (luck : string → Q) (i j : Z) (n visits : nat) (p : Example.Player) :
  Z.of_nat n ≤ coinCount (Example.bindPopup luck i j) →
  Example.playerCoins (Nat.iter visits (Example.visit luck i j n) p)
  = Example.playerCoins p + Z.of_nat visits * Z.of_nat n
  ∧ Example.playerPoints (Nat.iter visits (Example.visit luck i j n) p)
    = Example.playerPoints p
      + Z.of_nat visits * (Z.of_nat n * pointValue (Example.bindPopup luck i j)).
Proof.
  intros Hn. induction visits as [|v [IHc IHp]].
  - simpl. lia.
  - rewrite Nat.iter_succ. unfold Example.visit at 1 3.
    rewrite (example_collect_iter luck) by done.
    cbn [snd Example.playerCoins Example.playerPoints]. lia.
Qed.

(** With the sample oracle the cache of cell (3, 4) holds 7 coins worth 73
    points each: two
    visits that take all of them bring 14 coins and 1022 points. *)
Lemma example_cache_refills_witness :
  let p := Nat.iter 2 (Example.visit Sample.luck_near_origin 3 4 7) (Example.mkPlayer 0 0) in
  Example.playerCoins p = 14 ∧ Example.playerPoints p = 1022.
Proof.
  intros p.
  destruct (example_cache_refills Sample.luck_near_origin 3 4 7 2
              (Example.mkPlayer 0 0))
    as [Hc Hp]; [vm_compute; discriminate|].
  split; [etrans; [exact Hc|done]|etrans; [exact Hp|by vm_compute]].
Defined.

(** * Further properties of the coordinate flyweight and the coins *)

(** Every object of the factory is the one registered for its cell. *)
Lemma objects_registered (R : Flyweight.Registry) :
  Flyweight.reachable R →
  ∀ a c, Flyweight.objects R !! a = Some c →
         Flyweight.coordinates R !! Flyweight.key (cell_i c) (cell_j c) = Some a.
Proof.
  induction 1 as [|lat lng R HR IH]; [intros a c; simpl; by rewrite lookup_nil|].
  destruct (Flyweight.coordinates R
              !! Flyweight.key (Math_floor (lat / Flyweight.cellSize))
                               (Math_floor (lng / Flyweight.cellSize)))
    as [a'|] eqn:Hk.
  - by rewrite (FlyweightFacts.getCoordinate_known _ _ _ a' Hk).
  - rewrite (FlyweightFacts.getCoordinate_new _ _ _ Hk).
    cbn [snd Flyweight.coordinates Flyweight.objects].
    intros a c [Ha|[Hlen Ha]]%lookup_app_Some.
    + rewrite lookup_insert_ne; [by apply IH|].
      intros Heq. apply IH in Ha. congruence.
    + apply list_lookup_singleton_Some in Ha as [Hz <-]. simpl.
      rewrite lookup_insert_eq. f_equal. lia.
Qed.

(** X8. The factory keeps one [Coordinate] object per cell: in a registry
    built by calls of [getCoordinate], no two objects hold the same pair of
    indices, there are as many objects as keys, and every call returns a
    reference, never [undefined]. *)
Theorem one_object_per_cell (R : Flyweight.Registry) (lat lng : Q) :
  Flyweight.reachable R →
  NoDup (Flyweight.objects R)
  ∧ length (Flyweight.objects R) = size (Flyweight.coordinates R)
  ∧ is_Some (Flyweight.getCoordinate lat lng R).1.
Proof.
  intros HR. split; [|split].
  - apply NoDup_alt. intros a b c Ha Hb.
    apply (objects_registered R HR) in Ha, Hb. congruence.
  - clear lat lng. induction HR as [|lat lng R HR IH]; [done|].
    destruct (Flyweight.coordinates R
                !! Flyweight.key (Math_floor (lat / Flyweight.cellSize))
                                 (Math_floor (lng / Flyweight.cellSize)))
      as [a'|] eqn:Hk.
    + by rewrite (FlyweightFacts.getCoordinate_known _ _ _ a' Hk).
    + rewrite (FlyweightFacts.getCoordinate_new _ _ _ Hk).
      cbn [snd Flyweight.coordinates Flyweight.objects].
      rewrite length_app, map_size_insert_None by done. simpl. lia.
  - destruct (FlyweightFacts.getCoordinate_spec lat lng R
                (FlyweightFacts.wf_reachable R HR)) as (a & -> & _). by exists a.
Qed.

(** A registry that knows three cells, one of them asked for twice. *)
Lemma one_object_per_cell_witness :
  let R := Flyweight.calls
             [(0%Q, 0%Q); ((1 # 2)%Q, (1 # 3)%Q); ((1 # 100000)%Q, (1 # 100000)%Q);
              ((- (1 # 2))%Q, 5%Q)]
             Flyweight.empty in
  NoDup (Flyweight.objects R)
  ∧ length (Flyweight.objects R) = size (Flyweight.coordinates R)
  ∧ is_Some (Flyweight.getCoordinate 0 0 R).1.
Proof.
  intros R.
  apply (one_object_per_cell R 0 0).
  apply FlyweightFacts.reachable_calls, Flyweight.reachable_empty.
Defined.

Lemma brace_not_in_number (z : Z) : ¬ occurs "}"%char (Number_toString z).
Proof.
  apply separator_not_in_number; [done|].
  intros d Hd. unfold pretty_N_char. by repeat case_match.
Qed.

Lemma hash_not_in_number (z : Z) : ¬ occurs "#"%char (Number_toString z).
Proof.
  apply separator_not_in_number; [done|].
  intros d Hd. unfold pretty_N_char. by repeat case_match.
Qed.

(** The identifier of the TypeScript class tells the indices and the
    serial. *)
Lemma unique_id_inj (i j s i' j' s' : Z) :
  "{i: " +:+ Number_toString i +:+ ", j: " +:+ Number_toString j
    +:+ ", serial: " +:+ Number_toString s +:+ "}"
  = "{i: " +:+ Number_toString i' +:+ ", j: " +:+ Number_toString j'
    +:+ ", serial: " +:+ Number_toString s' +:+ "}" →
  i = i' ∧ j = j' ∧ s = s'.
Proof.
  intros Heq. cbn in Heq. injection Heq as Heq.
  apply (separated_inj ","%char) in Heq as [Hi Heq];
    [|apply comma_not_in_number..].
  injection Heq as Heq.
  apply (separated_inj ","%char) in Heq as [Hj Heq];
    [|apply comma_not_in_number..].
  injection Heq as Heq.
  apply (separated_inj "}"%char) in Heq as [Hs _];
    [|apply brace_not_in_number..].
  repeat split; by apply (inj pretty).
Qed.

(** So does the identifier of the JavaScript class. *)
Lemma unique_id_js_inj (i j s i' j' s' : Z) :
  Number_toString i +:+ ":" +:+ Number_toString j +:+ "#" +:+ Number_toString s
  = Number_toString i' +:+ ":" +:+ Number_toString j' +:+ "#" +:+ Number_toString s' →
  i = i' ∧ j = j' ∧ s = s'.
Proof.
  intros Heq.
  apply (separated_inj ":"%char) in Heq as [Hi Heq];
    [|apply FlyweightFacts.colon_not_in_number..].
  apply (separated_inj "#"%char) in Heq as [Hj Hs];
    [|apply hash_not_in_number..].
  repeat split; by apply (inj pretty).
Qed.

(** X9. The identifier of a coin is unique: two coins on coordinates of the
    factory that give the same [getUniqueID()], in the TypeScript or in the
    JavaScript class, are the same coin, with the same [Coordinate] object
    and the same serial. *)
Theorem coin_identifier_is_unique
    (R : Flyweight.Registry) (c1 c2 : Tokens.Coin) (id : string) :
  Flyweight.reachable R →
  (Tokens.getUniqueID R c1 = Some id ∧ Tokens.getUniqueID R c2 = Some id)
  ∨ (Tokens.getUniqueID_js R c1 = Some id ∧ Tokens.getUniqueID_js R c2 = Some id) →
  c1 = c2.
Proof.
  intros HR Hids.
  destruct c1 as [[a1|] s1], c2 as [[a2|] s2];
    unfold Tokens.getUniqueID, Tokens.getUniqueID_js in Hids; simpl in Hids;
    try (by destruct Hids as [[? ?]|[? ?]]).
  destruct (Flyweight.objects R !! a1) as [cell1|] eqn:H1; simpl in Hids;
    [|by destruct Hids as [[? ?]|[? ?]]].
  destruct (Flyweight.objects R !! a2) as [cell2|] eqn:H2; simpl in Hids;
    [|by destruct Hids as [[? ?]|[? ?]]].
  assert (cell_i cell1 = cell_i cell2 ∧ cell_j cell1 = cell_j cell2 ∧ s1 = s2)
    as (Hi & Hj & ->).
  { destruct Hids as [[Hid1 Hid2]|[Hid1 Hid2]].
    - apply unique_id_inj. congruence.
    - apply unique_id_js_inj. congruence. }
  apply (objects_registered R HR) in H1, H2.
  rewrite Hi, Hj in H1. by assert (a1 = a2) as -> by congruence.
Qed.

(** Two coins of the cell (369916, -1220633) of the model, with the same
    identifier. *)
Lemma coin_identifier_is_unique_witness :
  let R := (Flyweight.getCoordinate (369916 # 10000) (- (1220633 # 10000))
              Flyweight.empty).2 in
  Tokens.mkCoin (Some 0%nat) 1 = Tokens.mkCoin (Some 0%nat) 1.
Proof.
  intros R.
  apply (coin_identifier_is_unique R _ _ "{i: 369916, j: -1220633, serial: 1}").
  - apply Flyweight.reachable_get, Flyweight.reachable_empty.
  - left. by vm_compute.
Defined.

Lemma bind_singleton_fmap {A B : Type} (g : A → B) (l : list A) :
  l ≫= (λ x, [g x]) = g <$> l.
Proof. induction l as [|x l IH]; [done|]. by rewrite bind_cons, IH. Qed.

Lemma spawnCoinsAtCache_spec (lat lng : Q) (count : Z) (R : Flyweight.Registry) :
  Tokens.spawnCoinsAtCache lat lng count R
  = (Tokens.mkCoin (Flyweight.getCoordinate lat lng R).1
       <$> seqZ 0 (Z.of_nat (Z.to_nat count)),
     (Flyweight.getCoordinate lat lng R).2).
Proof.
  unfold Tokens.spawnCoinsAtCache.
  destruct (Flyweight.getCoordinate lat lng R) as [coordinate R'].
  cbn [fst snd]. f_equal. unfold for_lt.
  rewrite (for_count_collect (λ l : list Tokens.Coin, l) (λ _ l, l)
             (λ serial, [Tokens.mkCoin coordinate serial]));
    try done.
  rewrite Z.sub_0_r. simpl. apply bind_singleton_fmap.
Qed.

(** X10. [spawnCoinsAtCache(lat, lng, count)] makes [count] coins, none for
    a count of 0 or less, numbered 0 to [count - 1] in this order, all on
    the one [Coordinate] object of the cell of the point; their identifiers
    are defined and pairwise different. *)
Theorem spawned_coins_are_distinct
    (R : Flyweight.Registry) (lat lng : Q) (count : Z) :
  Flyweight.reachable R →
  let coins := (Tokens.spawnCoinsAtCache lat lng count R).1 in
  let R' := (Tokens.spawnCoinsAtCache lat lng count R).2 in
  let cell := mkCell (Math_floor (lat / Flyweight.cellSize))
                     (Math_floor (lng / Flyweight.cellSize)) in
  Flyweight.reachable R'
  ∧ length coins = Z.to_nat count
  ∧ Tokens.serial <$> coins = seqZ 0 (Z.of_nat (Z.to_nat count))
  ∧ (∃ a, Flyweight.objects R' !! a = Some cell
          ∧ ∀ c, c ∈ coins → Tokens.coordinate c = Some a)
  ∧ (∀ c, c ∈ coins →
       Tokens.getUniqueID R' c
       = Some ("{i: " +:+ Number_toString (cell_i cell)
               +:+ ", j: " +:+ Number_toString (cell_j cell)
               +:+ ", serial: " +:+ Number_toString (Tokens.serial c) +:+ "}"))
  ∧ NoDup (Tokens.getUniqueID R' <$> coins)
  ∧ NoDup (Tokens.getUniqueID_js R' <$> coins).
Proof.
  intros HR coins R' cell. unfold coins, R'. clear coins R'.
  rewrite spawnCoinsAtCache_spec. cbn [fst snd].
  destruct (FlyweightFacts.getCoordinate_spec lat lng R
              (FlyweightFacts.wf_reachable R HR)) as (a & Ha & _ & Hobj).
  fold cell in Hobj. rewrite Ha.
  assert (Flyweight.reachable (Flyweight.getCoordinate lat lng R).2) as HR'
    by (by constructor).
  remember (Flyweight.getCoordinate lat lng R).2 as R'' eqn:HeqR. clear HeqR.
  assert (Hid : ∀ s, Tokens.getUniqueID R''
                       (Tokens.mkCoin (Some a) s)
                     = Some ("{i: " +:+ Number_toString (cell_i cell)
                             +:+ ", j: " +:+ Number_toString (cell_j cell)
                             +:+ ", serial: " +:+ Number_toString s +:+ "}")).
  { intros s. unfold Tokens.getUniqueID. simpl. by rewrite Hobj. }
  assert (Hjs : ∀ s, Tokens.getUniqueID_js R''
                       (Tokens.mkCoin (Some a) s)
                     = Some (Number_toString (cell_i cell) +:+ ":"
                             +:+ Number_toString (cell_j cell)
                             +:+ "#" +:+ Number_toString s)).
  { intros s. unfold Tokens.getUniqueID_js. simpl. by rewrite Hobj. }
  split; [done|].
  split; [by rewrite length_fmap, length_seqZ, Nat2Z.id|].
  split; [rewrite <-list_fmap_compose; apply list_fmap_id|].
  split; [exists a; split; [done|]; by intros c (s & -> & _)%list_elem_of_fmap|].
  split; [by intros c (s & -> & _)%list_elem_of_fmap|].
  split.
  - rewrite <-list_fmap_compose. apply NoDup_fmap_2; [|apply NoDup_seqZ].
    intros s s'. unfold compose. rewrite !Hid. intros Heq.
    apply (inj Some) in Heq. by apply unique_id_inj in Heq as (_ & _ & ?).
  - rewrite <-list_fmap_compose. apply NoDup_fmap_2; [|apply NoDup_seqZ].
    intros s s'. unfold compose. rewrite !Hjs. intros Heq.
    apply (inj Some) in Heq. by apply unique_id_js_inj in Heq as (_ & _ & ?).
Qed.

(** Two coins spawned at a point of the cell (369916, -1220633) of the
    model. *)
Lemma spawned_coins_are_distinct_witness :
  let coins := (Tokens.spawnCoinsAtCache (369916 # 10000) (- (1220633 # 10000)) 2
                  Flyweight.empty).1 in
  let R' := (Tokens.spawnCoinsAtCache (369916 # 10000) (- (1220633 # 10000)) 2
               Flyweight.empty).2 in
  length coins = 2%nat ∧ NoDup (Tokens.getUniqueID R' <$> coins).
Proof.
  intros coins R'.
  destruct (spawned_coins_are_distinct Flyweight.empty
              (369916 # 10000) (- (1220633 # 10000)) 2 Flyweight.reachable_empty)
    as (_ & Hlen & _ & _ & _ & Hids & _).
  split; [exact Hlen|exact Hids].
Defined.

(** X11. In the popup of the build with [generateCoins], whatever buttons
    are clicked and in whatever order, the coins of the cache and of the
    wallet together stay as many as they were; a second collect, or a
    second deposit, right after the first changes nothing; and neither
    counter becomes negative if none was. *)
Theorem purse_is_conserved (clicks : list Tokens.click) (s : Tokens.Purse) :
  let s' := foldl (λ s c, Tokens.handle c s) s clicks in
  Tokens.coinCount s' + Tokens.playerCoins s'
  = Tokens.coinCount s + Tokens.playerCoins s
  ∧ Tokens.collect (Tokens.collect s) = Tokens.collect s
  ∧ Tokens.deposit (Tokens.deposit s) = Tokens.deposit s
  ∧ (0 ≤ Tokens.coinCount s → 0 ≤ Tokens.playerCoins s →
     0 ≤ Tokens.coinCount s' ∧ 0 ≤ Tokens.playerCoins s').
Proof.
  assert (Hone : ∀ c s, Tokens.coinCount (Tokens.handle c s)
                        + Tokens.playerCoins (Tokens.handle c s)
                        = Tokens.coinCount s + Tokens.playerCoins s
                      ∧ (0 ≤ Tokens.coinCount s → 0 ≤ Tokens.playerCoins s →
                         0 ≤ Tokens.coinCount (Tokens.handle c s)
                         ∧ 0 ≤ Tokens.playerCoins (Tokens.handle c s))).
  { intros [] [cc pc]; unfold Tokens.handle, Tokens.collect, Tokens.deposit;
      simpl; [destruct (Z.ltb_spec 0 cc)|destruct (Z.ltb_spec 0 pc)]; simpl; lia. }
  cbv zeta. split; [|split; [|split]].
  - revert s. induction clicks as [|c clicks IH]; intros s; [done|].
    simpl. rewrite IH. apply Hone.
  - destruct s as [cc pc]. unfold Tokens.collect. simpl.
    destruct (0 <? cc) eqn:Hcc; simpl; by rewrite ?Hcc.
  - destruct s as [cc pc]. unfold Tokens.deposit. simpl.
    destruct (0 <? pc) eqn:Hpc; simpl; by rewrite ?Hpc.
  - revert s. induction clicks as [|c clicks IH]; intros s H1 H2; [done|].
    simpl. apply IH; by apply Hone.
Qed.

(** A cache of 5 coins and a wallet of 2, after collect, collect, deposit. *)
Lemma purse_is_conserved_witness :
  let s' := foldl (λ s c, Tokens.handle c s) (Tokens.mkPurse 5 2)
              [Tokens.Collect; Tokens.Collect; Tokens.Deposit] in
  Tokens.coinCount s' + Tokens.playerCoins s' = 7
  ∧ 0 ≤ Tokens.coinCount s' ∧ 0 ≤ Tokens.playerCoins s'.
Proof.
  intros s'.
  destruct (purse_is_conserved
              [Tokens.Collect; Tokens.Collect; Tokens.Deposit]
              (Tokens.mkPurse 5 2)) as (Hsum & _ & _ & Hpos).
  split; [exact Hsum|]. apply Hpos; simpl; lia.
Defined.

(** * Further properties of the build with [CacheMemento] *)

(** X12. The build with [CacheMemento] never gives points: from a start
    on an empty slot on, whatever the player does (moves, position updates,
    popups, collects, deposits, resets, reloads of the page),
    [playerPoints] is 0, and so are the points saved in the slot. *)
Theorem memento_points_stay_zero
    (luck : string → Q) (coordinate_toString : Q → string) (s : Memento.Session) :
  Memento.reachable luck coordinate_toString s →
  Memento.playerPoints (Memento.world s) = 0
  ∧ ∀ b, Memento.localStorage (Memento.world s) = Some b →
      ∃ w0, b = Parsed (Memento.snapshot w0) ∧ Memento.playerPoints w0 = 0.
Proof.
  unfold Memento.reachable. revert s.
  apply (rtc_ind_r
           (λ s, Memento.playerPoints (Memento.world s) = 0
                 ∧ ∀ b, Memento.localStorage (Memento.world s) = Some b →
                     ∃ w0, b = Parsed (Memento.snapshot w0)
                           ∧ Memento.playerPoints w0 = 0)
           (Memento.start luck coordinate_toString)).
  - unfold Memento.start. rewrite MementoFacts.boot_spec. by split.
  - intros s s' _ Hstep [IH Hslot].
    assert (Hmove : ∀ l,
              let w' := Memento.moveTo luck coordinate_toString l (Memento.world s) in
              Memento.playerPoints w' = 0
              ∧ ∀ b, Memento.localStorage w' = Some b →
                  ∃ w0, b = Parsed (Memento.snapshot w0)
                        ∧ Memento.playerPoints w0 = 0).
    { intros l. unfold Memento.moveTo.
      rewrite MementoFacts.memento_updateCaches_spec. split; [done|].
      intros b [= <-]. by eexists. }
    destruct Hstep as [s|s|s|s|l s|s|l random s Hl H0 H1|p s Hin|p s Hin|s w' Hrun];
      cbn [Memento.world].
    + apply Hmove.
    + apply Hmove.
    + apply Hmove.
    + apply Hmove.
    + apply Hmove.
    + unfold Memento.reset. rewrite MementoFacts.memento_updateCaches_spec.
      split; [done|]. intros b [= <-]. by eexists.
    + destruct (MementoFacts.memento_bindPopup_keeps luck coordinate_toString
                  (lat l) (lng l) random (Memento.world s)) as [Hses ->].
      split; [|done]. by injection Hses as _ -> _ _.
    + destruct (MementoFacts.memento_clicks_keep p (Memento.world s))
        as [[-> ->] _]. by split.
    + destruct (MementoFacts.memento_clicks_keep p (Memento.world s))
        as [_ [-> ->]]. by split.
    + destruct (Memento.localStorage (Memento.world s)) as [b|] eqn:Hb.
      * destruct (Hslot b eq_refl) as (w0 & -> & Hw0).
        destruct (MementoFacts.loadState_snapshot w0
                    (Memento.boot luck coordinate_toString
                       (Some (Parsed (Memento.snapshot w0)))))
          as (w'' & Hrun' & Hses & _ & _ & _ & Hsto & _);
          [by rewrite MementoFacts.boot_spec|].
        assert (w'' = w') as -> by congruence.
        injection Hses as _ Hpts _ _. split; [congruence|].
        intros b. rewrite Hsto, MementoFacts.localStorage_boot.
        intros [= <-]. by exists w0.
      * rewrite MementoFacts.boot_spec in Hrun. injection Hrun as <-.
        by split.
Qed.

(** The session after a step to the north. *)
Lemma memento_points_stay_zero_witness :
  Memento.playerPoints
    (Memento.north Sample.luck Sample.coordinate_toString
       (Memento.world (Memento.start Sample.luck Sample.coordinate_toString))) = 0.
Proof.
  apply (memento_points_stay_zero Sample.luck Sample.coordinate_toString
           (Memento.mkSession
              (Memento.north Sample.luck Sample.coordinate_toString
                 (Memento.world (Memento.start Sample.luck Sample.coordinate_toString)))
              [])).
  eapply rtc_l; [|apply rtc_refl].
  apply (Memento.step_north Sample.luck Sample.coordinate_toString
           (Memento.start Sample.luck Sample.coordinate_toString)).
Defined.

(** X13. In the build with [CacheMemento] a click on collect or deposit is
    not saved: the handlers leave the slot as it is, so a script restarted
    after a click finds the session and the store of the last [saveState],
    without the coins the click moved. *)
Theorem memento_clicks_are_not_saved
    (luck : string → Q) (coordinate_toString : Q → string)
    (p : Memento.Popup) (w : Memento.World) (handler : Memento.World → Memento.World) :
  handler = Memento.collect p ∨ handler = Memento.deposit p →
  Memento.localStorage (handler (Memento.saveState w))
    = Memento.localStorage (Memento.saveState w)
  ∧ ∃ w', Memento.loadState
            (Memento.boot luck coordinate_toString
               (Memento.localStorage (handler (Memento.saveState w))))
          = Memento.Returned w'
        ∧ Memento.session w' = Memento.session w
        ∧ Memento.store_view w' = Memento.store_view w.
Proof.
  intros Hh.
  assert (Memento.localStorage (handler (Memento.saveState w))
          = Some (Parsed (Memento.snapshot w))) as Hslot.
  { destruct (MementoFacts.memento_clicks_keep p (Memento.saveState w))
      as [[_ Hc] [_ Hd]].
    by destruct Hh as [-> | ->]. }
  split; [done|]. rewrite Hslot.
  destruct (MementoFacts.loadState_snapshot w
              (Memento.boot luck coordinate_toString
                 (Some (Parsed (Memento.snapshot w)))))
    as (w' & Hrun & Hses & Hview & _).
  { by rewrite MementoFacts.boot_spec. }
  by exists w'.
Qed.

(** Five coins collected after the save: the restarted script has none. *)
Lemma memento_clicks_are_not_saved_witness :
  let w := Memento.mkWorld (latLng 37 (-122)) 0 0 [mkCacheRecord 40 5]
             {["37:-122" := 0%nat]} [] [] None in
  let p := Memento.mkPopup 37 (-122) "37:-122" 0 40 5 in
  Memento.playerCoins (Memento.collect p (Memento.saveState w)) = 5
  ∧ ∃ w', Memento.loadState
            (Memento.boot Sample.luck Sample.coordinate_toString
               (Memento.localStorage (Memento.collect p (Memento.saveState w))))
          = Memento.Returned w'
        ∧ Memento.playerCoins w' = 0.
Proof.
  intros w p. split; [done|].
  destruct (memento_clicks_are_not_saved Sample.luck Sample.coordinate_toString
              p w (Memento.collect p) (or_introl eq_refl))
    as (_ & w' & Hrun & Hses & _).
  exists w'. split; [done|]. by injection Hses as _ _ -> _.
Defined.

(** X14. The reset of the build with [CacheMemento] keeps the player's
    location and clears the rest, and saves it: after a reset the points
    and the wallet are 0, the movement history and the store are empty, and
    a script restarted then finds exactly that. *)
Theorem memento_reset_is_saved
    (luck : string → Q) (coordinate_toString : Q → string) (w : Memento.World) :
  let w1 := Memento.reset luck coordinate_toString w in
  Memento.session w1 = (Memento.playerLocation w, 0, 0, [])
  ∧ Memento.cacheStates w1 = ∅
  ∧ ∃ w', Memento.loadState
            (Memento.boot luck coordinate_toString (Memento.localStorage w1))
          = Memento.Returned w'
        ∧ Memento.session w' = (Memento.playerLocation w, 0, 0, [])
        ∧ Memento.store_view w' = ∅.
Proof.
  cbv zeta. unfold Memento.reset.
  rewrite MementoFacts.memento_updateCaches_spec.
  set (w0 := Memento.set_circles _ _).
  split; [done|]. split; [done|].
  destruct (MementoFacts.loadState_snapshot w0
              (Memento.boot luck coordinate_toString
                 (Memento.localStorage (Memento.saveState w0))))
    as (w' & Hrun & Hses & Hview & _).
  { by rewrite MementoFacts.boot_spec. }
  exists w'. split; [done|]. split; [by rewrite Hses|].
  rewrite Hview. unfold Memento.store_view, w0. simpl. apply omap_empty.
Qed.

(** * Invariants of the counters *)

(** X15. From the start of the game on, whatever the player does, the
    wallet and the coin count of every cache stay at 0 or above, in
    [src/main.ts] and in the build with [CacheMemento], reloads of the page
    included. In [src/main.ts] the click handlers of a popup never fail, and
    a collect on an empty cache and a deposit from an empty wallet leave the
    state as it is. In the build with [CacheMemento] a deposit from an empty
    wallet leaves the state as it is, and so does a collect through a popup
    that was built on an empty cache. *)
Theorem counters_never_negative
    (luck : string → Q) (coordinate_toString : Q → string) :
  (∀ k, (0 <= luck k)%Q) →
  (∀ s : Main.Session, Main.reachable luck s →
     0 ≤ Main.playerCoins (Main.world s)
     ∧ (∀ k r, Main.cacheState (Main.world s) !! k = Some r → 0 ≤ coinCount r)
     ∧ (∀ p, p ∈ Main.popups s →
          ∃ r, Main.cacheState (Main.world s) !! Main.popup_cacheKey p = Some r
             ∧ is_Some (Main.collect p (Main.world s))
             ∧ is_Some (Main.deposit p (Main.world s))
             ∧ (coinCount r = 0 →
                Main.collect p (Main.world s) = Some (Main.world s))
             ∧ (Main.playerCoins (Main.world s) = 0 →
                Main.deposit p (Main.world s) = Some (Main.world s))))
  ∧ (∀ s : Memento.Session, Memento.reachable luck coordinate_toString s →
       0 ≤ Memento.playerCoins (Memento.world s)
       ∧ (∀ k r, Memento.store_view (Memento.world s) !! k = Some r →
            0 ≤ coinCount r)
       ∧ (∀ p, p ∈ Memento.popups s →
            0 ≤ Memento.popup_coinCount p
            ∧ (Memento.playerCoins (Memento.world s) = 0 →
               Memento.deposit p (Memento.world s) = Memento.world s)
            ∧ (Memento.popup_coinCount p = 0 →
               Memento.collect p (Memento.world s) = Memento.world s))).
Proof.
  intros Hluck. split.
  - intros s Hs.
    destruct (MainFacts.session_inv_reachable luck Hluck s Hs) as [Hw Hc Hp].
    split; [done|]. split; [done|].
    intros p Hin. destruct (Hp p Hin) as (r & Hr & _). exists r.
    split; [done|].
    assert (is_Some (Main.collect p (Main.world s))) as Hcol.
    { unfold Main.collect. rewrite Hr. by destruct (_ <? _). }
    assert (is_Some (Main.deposit p (Main.world s))) as Hdep.
    { unfold Main.deposit. rewrite Hr. by destruct (_ <? _). }
    repeat split; try done.
    + intros Hz. apply (MainFacts.collect_refused p _ r Hr). lia.
    + intros Hz. apply MainFacts.deposit_refused. lia.
  - intros s Hs.
    destruct (MementoFacts.memento_session_inv_reachable luck coordinate_toString s Hs)
      as [Hw Ho Hp _ _ _].
    split; [done|]. split.
    + intros k r Hr%MementoFacts.store_view_objects.
      by apply (proj1 (Forall_forall _ _) Ho).
    + intros p Hin. split; [by apply (proj1 (Forall_forall _ _) Hp p Hin)|].
      split.
      * intros Hz. apply MementoFacts.memento_deposit_refused. lia.
      * intros Hz. apply MementoFacts.memento_collect_refused. lia.
Qed.

(** With the sample oracle: the session of [src/main.ts] in which the cache
    of cell (369890, -1220630) is open, and the session of the other build
    in which the first circle of the map has been opened and emptied. *)
Lemma counters_never_negative_witness :
  let s := Main.mkSession
       (Main.bindPopup Sample.luck 369890 (-1220630) (Main.initialWorld Sample.luck)).2
       [(Main.bindPopup Sample.luck 369890 (-1220630) (Main.initialWorld Sample.luck)).1] in
  let m0 := Memento.start Sample.luck Sample.coordinate_toString in
  let l := latLng (lat Memento.OAKES_CLASSROOM + inject_Z (-8) * Memento.TILE_DEGREES)
                  (lng Memento.OAKES_CLASSROOM + inject_Z (-8) * Memento.TILE_DEGREES) in
  let m := Memento.mkSession
       (Memento.collect
          (Memento.bindPopup Sample.luck Sample.coordinate_toString
             (lat l) (lng l) (45 # 100) (Memento.world m0)).1
          (Memento.bindPopup Sample.luck Sample.coordinate_toString
             (lat l) (lng l) (45 # 100) (Memento.world m0)).2)
       ((Memento.bindPopup Sample.luck Sample.coordinate_toString
           (lat l) (lng l) (45 # 100) (Memento.world m0)).1 :: Memento.popups m0) in
  (0 ≤ Main.playerCoins (Main.world s)
   ∧ (∀ k r, Main.cacheState (Main.world s) !! k = Some r → 0 ≤ coinCount r))
  ∧ (0 ≤ Memento.playerCoins (Memento.world m)
     ∧ (∀ k r, Memento.store_view (Memento.world m) !! k = Some r →
          0 ≤ coinCount r)).
Proof.
  intros s m0 l m.
  destruct (counters_never_negative Sample.luck Sample.coordinate_toString
              sample_luck_nonneg) as [Hmain Hmemento].
  split.
  - destruct (Hmain s sample_session_reachable) as (Hw & Hc & _). by split.
  - assert (Memento.reachable Sample.luck Sample.coordinate_toString m) as Hm.
    { apply (memento_reachable_open_collect Sample.luck Sample.coordinate_toString
               m0 l (45 # 100)); [apply rtc_refl| |done|done].
      apply (elem_of_circles_updateCaches Sample.luck Sample.coordinate_toString).
      exists (-8), (-8). split; [done|]. split; [done|]. by vm_compute. }
    destruct (Hmemento m Hm) as (Hw & Hc & _). by split.
Defined.

(** * The cells in binary64 *)

(** X16. The cell of a point as JavaScript computes it. The TypeScript
    build asks the factory for the coordinate of (36.9916, -122.0633). The
    quotient 36.9916 / 0.0001 is rounded to 369915.99999999994, so the
    indices are 369915 and -1220633, where the exact quotient of the two
    decimal fractions floors to 369916. The classroom of [src/main.ts], at
    latitude 36.98949379578401, is in row 369894 either way. *)
Theorem classroom_cell_in_binary64 :
  Binary64.cellIndex (Binary64.decimal 369916 4) = Some 369915
  ∧ Binary64.cellIndex (Binary64.opp (Binary64.decimal 1220633 4))
    = Some (-1220633)
  ∧ Math_floor ((369916 # 10000) / Flyweight.cellSize) = 369916
  ∧ Math_floor (- (1220633 # 10000) / Flyweight.cellSize) = -1220633
  ∧ Binary64.cellIndex Binary64.OAKES_CLASSROOM_lat = Some 369894
  ∧ Math_floor (lat Main.OAKES_CLASSROOM / Main.TILE_DEGREES) = 369894.
Proof. repeat split; by vm_compute. Qed.
